(** * swift-quant: read/annotation overlap and DASH depletion metrics

    A shallow embedding of the analytic core of the repository:

    - [calculate_overlap_percentage.py]: [check_overlap] and the read loop of
      [calculate_overlap_percentage];
    - [dash_analysis/dash_analyzer.py]: [calculate_uniformity],
      [calculate_depletion_efficiency], [analyze_grna_target];
    - [dash_analysis/dash_statistics.py]: [calculate_cohens_d],
      [compare_groups], [rank_grnas], [identify_outliers],
      [correlation_analysis], [generate_summary_statistics].

    Python integers are [Z].  Floating-point values are idealised: a finite
    double is a real number, and the non-finite results that numpy produces
    (0/0, x/0) are kept as explicit values of [fval], so that the guards of the
    code against degenerate input can be followed branch by branch.  Rounding,
    overflow and signed zeros are not modelled; a property that needs the
    values to stay clear of overflow, or of a threshold, says so in its
    hypotheses. *)

From Stdlib Require Import ZArith List Bool String Reals Lra Lia Sorted Permutation.
From stdpp Require Import base option gmap strings.
Import ListNotations.

Local Open Scope Z_scope.

(** ** Interval overlap ([calculate_overlap_percentage.py]) *)

Module Overlap.

(** An annotation is the tuple [(start, end, name)]; [name] is [None] when the
    GTF attributes carry neither [gene_name] nor [gene_id]. *)
Definition annotation : Type := Z * Z * option string.

Definition ann_start (a : annotation) : Z := fst (fst a).
Definition ann_end (a : annotation) : Z := snd (fst a).

(** The half-open test of line 125. *)
Definition overlaps (read_start read_end : Z) (a : annotation) : bool :=
  (read_start <? ann_end a) && (read_end >? ann_start a).

(** [check_overlap]: the [for] loop with its [break] and its [return True]. *)
Fixpoint check_overlap (read_start read_end : Z) (annotations : list annotation)
  : bool :=
  match annotations with
  | [] => false
  | a :: rest =>
      if ann_start a >? read_end then false
      else if overlaps read_start read_end a then true
      else check_overlap read_start read_end rest
  end.

(** The same scan without the early exit. *)
Definition any_overlap (read_start read_end : Z) (annotations : list annotation)
  : bool :=
  existsb (overlaps read_start read_end) annotations.

(** Sorted ascending by start, as left by [annotations[chrom].sort()]. *)
Definition sorted_by_start (annotations : list annotation) : Prop :=
  StronglySorted (fun a b => ann_start a <= ann_start b) annotations.

(** The fields of a pysam [AlignedSegment] that the loop reads. *)
Record read : Type := mkRead {
  is_unmapped : bool;
  is_secondary : bool;
  is_supplementary : bool;
  mapping_quality : Z;
  is_proper_pair : bool;
  reference_name : string;
  reference_start : Z;
  reference_end : Z
}.

(** The three [continue] filters of lines 152-159. *)
Definition passes_filters (min_mapq : Z) (require_proper_pair : bool) (r : read)
  : bool :=
  negb (is_unmapped r || is_secondary r || is_supplementary r)
  && negb (mapping_quality r <? min_mapq)
  && negb (require_proper_pair && negb (is_proper_pair r)).

(** Lines 169-171: [chrom in annotations] and then [check_overlap]. *)
Definition read_overlaps (annotations : gmap string (list annotation)) (r : read)
  : bool :=
  match annotations !! reference_name r with
  | Some anns => check_overlap (reference_start r) (reference_end r) anns
  | None => false
  end.

(** The loop state: [(total_reads, overlapping_reads)]. *)
Definition counters : Type := Z * Z.

Definition process_read (annotations : gmap string (list annotation))
    (min_mapq : Z) (require_proper_pair : bool) (st : counters) (r : read)
  : counters :=
  if passes_filters min_mapq require_proper_pair r then
    (fst st + 1, if read_overlaps annotations r then snd st + 1 else snd st)
  else st.

Definition count_reads (annotations : gmap string (list annotation))
    (min_mapq : Z) (require_proper_pair : bool) (reads : list read) : counters :=
  fold_left (process_read annotations min_mapq require_proper_pair) reads (0, 0).

(** The same lookup with the full scan in place of [check_overlap]: whether
    some annotation of the read's chromosome overlaps the read. *)
Definition has_overlap (annotations : gmap string (list annotation)) (r : read)
  : bool :=
  match annotations !! reference_name r with
  | Some anns => any_overlap (reference_start r) (reference_end r) anns
  | None => false
  end.

End Overlap.

(** ** Floating-point values and the numpy reductions the code calls *)

Module Num.

(** A double: a finite value (idealised as a real), an infinity, or NaN. *)
Inductive fval : Type :=
  | Fin (x : R)
  | PInf
  | NInf
  | NaN.

Definition Rltb (x y : R) : bool := if Rlt_dec x y then true else false.
Definition Reqb (x y : R) : bool := if Req_dec_T x y then true else false.

Definition is_finite (v : fval) : bool :=
  match v with Fin _ => true | _ => false end.

Definition is_nan (v : fval) : bool :=
  match v with NaN => true | _ => false end.

Definition of_int (z : Z) : fval := Fin (IZR z).
Definition of_nat (n : nat) : fval := Fin (INR n).

(** The infinity with the sign of [x]; NaN for [x = 0] (as in [0 * inf], [0 / 0]). *)
Definition inf_of_sign (x : R) : fval :=
  if Rltb 0 x then PInf else if Rltb x 0 then NInf else NaN.

Definition fneg (a : fval) : fval :=
  match a with
  | Fin x => Fin (- x)
  | PInf => NInf
  | NInf => PInf
  | NaN => NaN
  end.

Definition fadd (a b : fval) : fval :=
  match a, b with
  | NaN, _ | _, NaN => NaN
  | Fin x, Fin y => Fin (x + y)
  | PInf, NInf | NInf, PInf => NaN
  | PInf, _ | _, PInf => PInf
  | NInf, _ | _, NInf => NInf
  end.

Definition fsub (a b : fval) : fval := fadd a (fneg b).

Definition fmul (a b : fval) : fval :=
  match a, b with
  | NaN, _ | _, NaN => NaN
  | Fin x, Fin y => Fin (x * y)
  | Fin x, PInf | PInf, Fin x => inf_of_sign x
  | Fin x, NInf | NInf, Fin x => inf_of_sign (- x)
  | PInf, PInf | NInf, NInf => PInf
  | PInf, NInf | NInf, PInf => NInf
  end.

(** numpy division: a zero divisor gives an infinity or NaN (with a warning),
    never an exception. *)
Definition fdiv (a b : fval) : fval :=
  match a, b with
  | NaN, _ | _, NaN => NaN
  | Fin x, Fin y => if Reqb y 0 then inf_of_sign x else Fin (x / y)
  | Fin _, (PInf | NInf) => Fin 0
  | PInf, Fin y => if Rltb y 0 then NInf else PInf
  | NInf, Fin y => if Rltb y 0 then PInf else NInf
  | _, _ => NaN
  end.

Definition fsqrt (a : fval) : fval :=
  match a with
  | Fin x => if Rltb x 0 then NaN else Fin (sqrt x)
  | PInf => PInf
  | _ => NaN
  end.

Definition fabs (a : fval) : fval :=
  match a with
  | Fin x => Fin (Rabs x)
  | PInf | NInf => PInf
  | NaN => NaN
  end.

(** Comparisons; every comparison with NaN is false. *)
Definition flt (a b : fval) : bool :=
  match a, b with
  | NaN, _ | _, NaN => false
  | Fin x, Fin y => Rltb x y
  | _, NInf => false
  | NInf, _ => true
  | PInf, _ => false
  | Fin _, PInf => true
  end.

Definition fgt (a b : fval) : bool := flt b a.

Definition feq (a b : fval) : bool :=
  match a, b with
  | Fin x, Fin y => Reqb x y
  | PInf, PInf | NInf, NInf => true
  | _, _ => false
  end.

(** Python's two-argument [min] and [max]: the first argument is kept unless
    the second compares strictly below (above) it. *)
Definition py_min (a b : fval) : fval := if flt b a then b else a.
Definition py_max (a b : fval) : fval := if fgt b a then b else a.

(** Exceptions. [UserError cls] is an exception class defined by the program. *)
Inductive exn : Type :=
  | ValueError
  | KeyError
  | ZeroDivisionError
  | UserError (cls : string).

Inductive result (A : Type) : Type :=
  | Ok (a : A)
  | Raise (e : exn).
Arguments Ok {A} a.
Arguments Raise {A} e.

Definition bind {A B : Type} (r : result A) (k : A -> result B) : result B :=
  match r with
  | Ok a => k a
  | Raise e => Raise e
  end.

Notation "'let!' x ':=' r 'in' k" := (bind r (fun x => k))
  (at level 10, x name, r at level 100, k at level 200).

(** Python float division: a zero divisor raises. *)
Definition py_div (a b : fval) : result fval :=
  if feq b (Fin 0) then Raise ZeroDivisionError else Ok (fdiv a b).

(** [np.sum], [np.mean], [np.var] and [np.std] (with [ddof]). *)
Definition np_sum (l : list fval) : fval := fold_left fadd l (Fin 0).

Definition np_mean (l : list fval) : fval :=
  fdiv (np_sum l) (of_nat (length l)).

Definition np_var (ddof : nat) (l : list fval) : fval :=
  let m := np_mean l in
  fdiv (np_sum (map (fun x => fmul (fsub x m) (fsub x m)) l))
       (of_nat (length l - ddof)).

Definition np_std (ddof : nat) (l : list fval) : fval := fsqrt (np_var ddof l).

(** Ascending insertion sort of values none of which is NaN. *)
Fixpoint insert_asc (x : fval) (l : list fval) : list fval :=
  match l with
  | [] => [x]
  | y :: rest => if flt y x then y :: insert_asc x rest else x :: l
  end.

Definition sort_asc (l : list fval) : list fval := fold_right insert_asc [] l.

(** [np.median]: NaN on an empty array or when a NaN is present. *)
Definition np_median (l : list fval) : fval :=
  if existsb is_nan l then NaN
  else
    let s := sort_asc l in
    let n := length l in
    match n with
    | O => NaN
    | _ =>
        if Nat.even n
        then fdiv (fadd (nth (n / 2 - 1) s NaN) (nth (n / 2) s NaN)) (Fin 2)
        else nth (n / 2) s NaN
    end.

(** [np.min] and [np.max]: an empty array raises [ValueError]; NaN propagates. *)
Definition np_min (l : list fval) : result fval :=
  match l with
  | [] => Raise ValueError
  | x :: rest =>
      Ok (fold_left (fun m y => if is_nan m || is_nan y then NaN
                                else if flt y m then y else m) rest x)
  end.

Definition np_max (l : list fval) : result fval :=
  match l with
  | [] => Raise ValueError
  | x :: rest =>
      Ok (fold_left (fun m y => if is_nan m || is_nan y then NaN
                                else if fgt y m then y else m) rest x)
  end.

(** [np.percentile(values, q)] with the default linear interpolation, for an
    integer [q] between 0 and 100. *)
Definition np_percentile (l : list fval) (q : nat) : fval :=
  if existsb is_nan l then NaN
  else
    let s := sort_asc l in
    let n := length l in
    match n with
    | O => NaN
    | _ =>
        let pos := (q * (n - 1))%nat in
        let lo := (pos / 100)%nat in
        let hi := Nat.min (lo + 1) (n - 1) in
        let g := Fin (INR (pos mod 100) / 100) in
        fadd (nth lo s NaN) (fmul (fsub (nth hi s NaN) (nth lo s NaN)) g)
    end.

End Num.

(** ** The percentage of overlapping reads ([calculate_overlap_percentage.py]) *)

Module Percentage.
Import Overlap Num.

(** Python's [a / b] on integers: a float, and [ZeroDivisionError] when [b]
    is 0. *)
Definition int_truediv (a b : Z) : result R :=
  if b =? 0 then Raise ZeroDivisionError else Ok (IZR a / IZR b)%R.

(** Line 177: the conditional expression around the division. *)
Definition percentage_of (st : counters) : result R :=
  if fst st >? 0
  then (let! ratio := int_truediv (snd st) (fst st) in Ok (ratio * 100)%R)
  else Ok 0%R.

(** [calculate_overlap_percentage], on the reads that [bam.fetch()] yields. *)
Definition calculate_overlap_percentage
    (reads : list read) (annotations : gmap string (list annotation))
    (min_mapq : Z) (require_proper_pair : bool) : result (Z * Z * R) :=
  let st := count_reads annotations min_mapq require_proper_pair reads in
  let! percentage := percentage_of st in
  Ok (fst st, snd st, percentage).

End Percentage.

(** ** Per-target metrics ([dash_analysis/dash_analyzer.py]) *)

Module Analyzer.
Import Num.

Record GRNATarget : Type := mkTarget {
  name : string;
  chrom : string;
  start : Z;
  end_ : Z
}.

Record DepletionMetrics : Type := mkMetrics {
  grna_name : string;
  target_region : string * Z * Z;
  mean_coverage : fval;
  median_coverage : fval;
  depletion_efficiency : fval;
  coverage_uniformity : fval;
  zero_coverage_fraction : fval;
  coefficient_of_variation : fval
}.

(** What [bam.pileup(chrom, start, end, truncate=True)] yields: the columns
    [(pos, n)] of an alignment file. *)
Definition pileup_source : Type := string -> Z -> Z -> list (Z * Z).

(** The analyzer object: the treated file and the optional control file. *)
Record DASHAnalyzer : Type := mkAnalyzer {
  bam : pileup_source;
  control_bam : option pileup_source
}.

(** A coverage array is an [np.int32] array; as floats for the reductions. *)
Definition as_float (coverage : list Z) : list fval := map of_int coverage.

(** [np.sum(coverage == 0)] *)
Definition count_zero (coverage : list Z) : nat :=
  length (List.filter (fun d => d =? 0) coverage).

(** [get_coverage]: [np.zeros(end - start)] raises on a negative length; every
    column inside the region overwrites its cell. *)
Definition get_coverage (src : pileup_source) (c : string) (s e : Z)
  : result (list Z) :=
  if e - s <? 0 then Raise ValueError
  else
    Ok (fold_left
          (fun coverage col =>
             if (s <=? fst col) && (fst col <? e)
             then <[Z.to_nat (fst col - s) := snd col]> coverage
             else coverage)
          (src c s e)
          (replicate (Z.to_nat (e - s)) 0)).

(** [calculate_uniformity] *)
Definition calculate_uniformity (coverage : list Z) : fval :=
  if (length coverage =? 0)%nat || feq (np_mean (as_float coverage)) (Fin 0)
  then Fin 0
  else
    let cv := fdiv (np_std 0 (as_float coverage)) (np_mean (as_float coverage)) in
    fdiv (Fin 1) (fadd (Fin 1) cv).

(** [calculate_depletion_efficiency] *)
Definition calculate_depletion_efficiency
    (treated_coverage : list Z) (control_coverage : option (list Z)) : fval :=
  match control_coverage with
  | Some control =>
      let treated_mean := np_mean (as_float treated_coverage) in
      let control_mean := np_mean (as_float control) in
      if feq control_mean (Fin 0) then Fin 0
      else
        let efficiency := fsub (Fin 1) (fdiv treated_mean control_mean) in
        py_max (Fin 0) (py_min (Fin 1) efficiency)
  | None =>
      if (length treated_coverage =? 0)%nat then Fin 0
      else fdiv (of_nat (count_zero treated_coverage))
                (of_nat (length treated_coverage))
  end.

(** [analyze_grna_target] *)
Definition analyze_grna_target (self : DASHAnalyzer) (target : GRNATarget)
  : result DepletionMetrics :=
  let! treated_cov :=
    get_coverage (bam self) (chrom target) (start target) (end_ target) in
  let! control_cov :=
    match control_bam self with
    | Some cb =>
        let! c := get_coverage cb (chrom target) (start target) (end_ target) in
        Ok (Some c)
    | None => Ok None
    end in
  let mean_cov := np_mean (as_float treated_cov) in
  let median_cov := np_median (as_float treated_cov) in
  let uniformity := calculate_uniformity treated_cov in
  let depletion_eff := calculate_depletion_efficiency treated_cov control_cov in
  let zero_frac :=
    if (0 <? length treated_cov)%nat
    then fdiv (of_nat (count_zero treated_cov)) (of_nat (length treated_cov))
    else Fin 0 in
  let cv :=
    if fgt mean_cov (Fin 0)
    then fdiv (np_std 0 (as_float treated_cov)) mean_cov
    else Fin 0 in
  Ok {| grna_name := name target;
        target_region := (chrom target, start target, end_ target);
        mean_coverage := mean_cov;
        median_coverage := median_cov;
        depletion_efficiency := depletion_eff;
        coverage_uniformity := uniformity;
        zero_coverage_fraction := zero_frac;
        coefficient_of_variation := cv |}.

(** The record that the specification promises for an empty coverage array. *)
Definition all_zero_metrics (m : DepletionMetrics) : Prop :=
  mean_coverage m = Fin 0 /\ median_coverage m = Fin 0 /\
  depletion_efficiency m = Fin 0 /\ coverage_uniformity m = Fin 0 /\
  zero_coverage_fraction m = Fin 0 /\ coefficient_of_variation m = Fin 0.

Definition all_finite (m : DepletionMetrics) : bool :=
  is_finite (mean_coverage m) && is_finite (median_coverage m) &&
  is_finite (depletion_efficiency m) && is_finite (coverage_uniformity m) &&
  is_finite (zero_coverage_fraction m) && is_finite (coefficient_of_variation m).

(** The specification's formula for the efficiency, for comparison with the
    code: [clip(x, lo, hi)] is [max(lo, min(hi, x))]. *)
Definition clip (lo hi x : fval) : fval := py_max lo (py_min hi x).

Definition spec_depletion_efficiency
    (treated : list Z) (control : option (list Z)) : fval :=
  match control with
  | Some c =>
      if feq (np_mean (as_float c)) (Fin 0) then Fin 0
      else clip (Fin 0) (Fin 1)
             (fsub (Fin 1) (fdiv (np_mean (as_float treated)) (np_mean (as_float c))))
  | None =>
      match treated with
      | [] => Fin 0
      | _ => fdiv (of_nat (count_zero treated)) (of_nat (length treated))
      end
  end.

End Analyzer.

(** ** Statistics over collections of metrics ([dash_analysis/dash_statistics.py]) *)

Module Statistics.
Import Num Analyzer.

Record ComparisonResult : Type := mkComparison {
  metric_name : string;
  group1_mean : fval;
  group2_mean : fval;
  group1_std : fval;
  group2_std : fval;
  t_statistic : fval;
  p_value : fval;
  significant : bool;
  effect_size : fval
}.

(** [calculate_cohens_d] *)
Definition calculate_cohens_d (group1 group2 : list fval) : fval :=
  let n1 := Z.of_nat (length group1) in
  let n2 := Z.of_nat (length group2) in
  let var1 := np_var 1 group1 in
  let var2 := np_var 1 group2 in
  let pooled_std :=
    fsqrt (fdiv (fadd (fmul (of_int (n1 - 1)) var1) (fmul (of_int (n2 - 1)) var2))
                (of_int (n1 + n2 - 2))) in
  if feq pooled_std (Fin 0) then Fin 0
  else fdiv (fsub (np_mean group1) (np_mean group2)) pooled_std.

Section Libraries.

(** scipy's two-sided p-value of Student's t distribution: a function of the
    degrees of freedom and of the absolute value of the statistic. *)
Variable two_sided_p : Z -> fval -> fval.

(** The result type and the behaviour of pandas' [DataFrame.corr] on the named
    columns. *)
Variable corr_matrix : Type.
Variable df_corr : list (string * list fval) -> corr_matrix.

(** [scipy.stats.ttest_ind(a, b)] with its defaults: equal variances pooled
    over [n1 + n2 - 2] degrees of freedom, two-sided. *)
Definition ttest_ind (a b : list fval) : fval * fval :=
  let n1 := Z.of_nat (length a) in
  let n2 := Z.of_nat (length b) in
  let df := n1 + n2 - 2 in
  let svar :=
    fdiv (fadd (fmul (of_int (n1 - 1)) (np_var 1 a))
               (fmul (of_int (n2 - 1)) (np_var 1 b)))
         (of_int df) in
  let denom :=
    fsqrt (fmul svar (fadd (fdiv (Fin 1) (of_int n1)) (fdiv (Fin 1) (of_int n2)))) in
  let t := fdiv (fsub (np_mean a) (np_mean b)) denom in
  (t, two_sided_p df (fabs t)).

(** The fixed metric list of [compare_groups]. *)
Definition metrics_to_compare : list ((DepletionMetrics -> fval) * string) :=
  [ (depletion_efficiency, "Depletion Efficiency"%string);
    (coverage_uniformity, "Coverage Uniformity"%string);
    (zero_coverage_fraction, "Zero Coverage Fraction"%string);
    (coefficient_of_variation, "Coefficient of Variation"%string) ].

Definition compare_metric (group1_metrics group2_metrics : list DepletionMetrics)
    (alpha : fval) (m : (DepletionMetrics -> fval) * string) : ComparisonResult :=
  let group1_values := map (fst m) group1_metrics in
  let group2_values := map (fst m) group2_metrics in
  let tp := ttest_ind group1_values group2_values in
  let effect := calculate_cohens_d group1_values group2_values in
  {| metric_name := snd m;
     group1_mean := np_mean group1_values;
     group2_mean := np_mean group2_values;
     group1_std := np_std 1 group1_values;
     group2_std := np_std 1 group2_values;
     t_statistic := fst tp;
     p_value := snd tp;
     significant := flt (snd tp) alpha;
     effect_size := effect |}.

(** [compare_groups] *)
Definition compare_groups (group1_metrics group2_metrics : list DepletionMetrics)
    (alpha : fval) : list ComparisonResult :=
  map (compare_metric group1_metrics group2_metrics alpha) metrics_to_compare.



End Libraries.

(** *** [rank_grnas] *)

Definition default_weights : gmap string fval :=
  <["depletion"%string := Fin (4 / 10)]>
  (<["uniformity"%string := Fin (3 / 10)]>
  (<["zero_coverage"%string := Fin (2 / 10)]>
  (<["cv"%string := Fin (1 / 10)]> ∅))).

(** [weights[k]] *)
Definition weight (weights : gmap string fval) (k : string) : result fval :=
  match weights !! k with
  | Some w => Ok w
  | None => Raise KeyError
  end.

(** One entry of [scores], without the rank column. *)
Record score_row : Type := mkRow {
  gRNA_name : string;
  composite_score : fval;
  row_depletion_efficiency : fval;
  row_coverage_uniformity : fval;
  row_zero_coverage_fraction : fval;
  row_coefficient_of_variation : fval
}.

(** The body of the scoring loop (lines 143-165). *)
Definition score_metrics (weights : gmap string fval) (metrics : DepletionMetrics)
  : result score_row :=
  let depletion_score := depletion_efficiency metrics in
  let uniformity_score := coverage_uniformity metrics in
  let zero_cov_score := zero_coverage_fraction metrics in
  let! cv_score :=
    py_div (Fin 1) (fadd (Fin 1) (coefficient_of_variation metrics)) in
  let! w_d := weight weights "depletion" in
  let! w_u := weight weights "uniformity" in
  let! w_z := weight weights "zero_coverage" in
  let! w_c := weight weights "cv" in
  Ok {| gRNA_name := grna_name metrics;
        composite_score :=
          fadd (fadd (fadd (fmul w_d depletion_score) (fmul w_u uniformity_score))
                     (fmul w_z zero_cov_score))
               (fmul w_c cv_score);
        row_depletion_efficiency := depletion_efficiency metrics;
        row_coverage_uniformity := coverage_uniformity metrics;
        row_zero_coverage_fraction := zero_coverage_fraction metrics;
        row_coefficient_of_variation := coefficient_of_variation metrics |}.

Fixpoint score_all (weights : gmap string fval) (metrics_list : list DepletionMetrics)
  : result (list score_row) :=
  match metrics_list with
  | [] => Ok []
  | m :: rest =>
      let! r := score_metrics weights m in
      let! rs := score_all weights rest in
      Ok (r :: rs)
  end.

(** Descending order of sort keys with NaN last ([na_position='last']). *)
Definition score_geb (a b : fval) : bool :=
  match a, b with
  | _, NaN => true
  | NaN, _ => false
  | _, _ => negb (flt a b)
  end.

Definition sorted_desc (rows : list score_row) : Prop :=
  StronglySorted
    (fun r1 r2 => score_geb (composite_score r1) (composite_score r2) = true) rows.

(** [df.sort_values('composite_score', ascending=False)] with pandas' default
    [kind='quicksort']: the rows are permuted into descending key order; the
    library promises nothing about the order of rows with equal keys. *)
Definition sort_values (rows sorted : list score_row) : Prop :=
  Permutation rows sorted /\ sorted_desc sorted.

(** [df['rank'] = range(1, len(df) + 1)] *)
Definition assign_ranks (rows : list score_row) : list (Z * score_row) :=
  combine (map Z.of_nat (seq 1 (length rows))) rows.

(** [rank_grnas], as a relation between the arguments and the outcome: an
    exception of the scoring loop; [KeyError] from sorting the column-less
    frame that an empty list makes; or the ranked rows of any sort allowed by
    [sort_values]. *)
Inductive rank_grnas (metrics_list : list DepletionMetrics)
    (weights : option (gmap string fval)) : result (list (Z * score_row)) -> Prop :=
  | rank_scoring_raises e :
      score_all (default default_weights weights) metrics_list = Raise e ->
      rank_grnas metrics_list weights (Raise e)
  | rank_empty_frame :
      score_all (default default_weights weights) metrics_list = Ok [] ->
      rank_grnas metrics_list weights (Raise KeyError)
  | rank_sorted scores sorted :
      score_all (default default_weights weights) metrics_list = Ok scores ->
      scores <> [] ->
      sort_values scores sorted ->
      rank_grnas metrics_list weights (Ok (assign_ranks sorted)).

(** *** [identify_outliers] *)

Definition z_score (x mean std : fval) : fval :=
  if fgt std (Fin 0) then fdiv (fsub x mean) std else Fin 0.

Definition depletion_z (metrics_list : list DepletionMetrics) (m : DepletionMetrics)
  : fval :=
  let depletion_values := map depletion_efficiency metrics_list in
  z_score (depletion_efficiency m) (np_mean depletion_values) (np_std 0 depletion_values).

Definition uniformity_z (metrics_list : list DepletionMetrics) (m : DepletionMetrics)
  : fval :=
  let uniformity_values := map coverage_uniformity metrics_list in
  z_score (coverage_uniformity m) (np_mean uniformity_values) (np_std 0 uniformity_values).

Definition is_high_performer (metrics_list : list DepletionMetrics) (n_std : fval)
    (m : DepletionMetrics) : bool :=
  fgt (depletion_z metrics_list m) n_std && fgt (uniformity_z metrics_list m) n_std.

Definition is_low_performer (metrics_list : list DepletionMetrics) (n_std : fval)
    (m : DepletionMetrics) : bool :=
  flt (depletion_z metrics_list m) (fneg n_std)
  || flt (uniformity_z metrics_list m) (fneg n_std).

(** The result dict, as the pair [(high_performers, low_performers)]. *)
Definition identify_outliers (metrics_list : list DepletionMetrics) (n_std : fval)
  : list string * list string :=
  (map grna_name (List.filter (is_high_performer metrics_list n_std) metrics_list),
   map grna_name (List.filter (is_low_performer metrics_list n_std) metrics_list)).

(** *** [generate_summary_statistics] *)

Record summary_row : Type := mkSummary {
  s_mean : fval;
  s_median : fval;
  s_std : fval;
  s_min : fval;
  s_max : fval;
  s_q25 : fval;
  s_q75 : fval
}.

Definition summary_columns (metrics_list : list DepletionMetrics)
  : list (string * list fval) :=
  [ ("Depletion Efficiency"%string, map depletion_efficiency metrics_list);
    ("Coverage Uniformity"%string, map coverage_uniformity metrics_list);
    ("Zero Coverage Fraction"%string, map zero_coverage_fraction metrics_list);
    ("Coefficient of Variation"%string, map coefficient_of_variation metrics_list);
    ("Mean Coverage"%string, map mean_coverage metrics_list);
    ("Median Coverage"%string, map median_coverage metrics_list) ].

(** The dict literal of lines 262-270, its entries evaluated in order. *)
Definition summarize (values : list fval) : result summary_row :=
  let mean := np_mean values in
  let median := np_median values in
  let std := np_std 0 values in
  let! mn := np_min values in
  let! mx := np_max values in
  Ok {| s_mean := mean; s_median := median; s_std := std;
        s_min := mn; s_max := mx;
        s_q25 := np_percentile values 25; s_q75 := np_percentile values 75 |}.

Fixpoint summarize_all (cols : list (string * list fval))
  : result (list (string * summary_row)) :=
  match cols with
  | [] => Ok []
  | (metric, values) :: rest =>
      let! row := summarize values in
      let! rows := summarize_all rest in
      Ok ((metric, row) :: rows)
  end.

Definition generate_summary_statistics (metrics_list : list DepletionMetrics)
  : result (list (string * summary_row)) :=
  summarize_all (summary_columns metrics_list).

(** The comparison one expects after exchanging the two groups. *)
Definition swapped (r : ComparisonResult) : ComparisonResult :=
  {| metric_name := metric_name r;
     group1_mean := group2_mean r;
     group2_mean := group1_mean r;
     group1_std := group2_std r;
     group2_std := group1_std r;
     t_statistic := fneg (t_statistic r);
     p_value := p_value r;
     significant := significant r;
     effect_size := fneg (effect_size r) |}.

End Statistics.

(** ** [compare_groups] with a t-test that may raise *)

Module LibraryCalls.
Import Num Analyzer Statistics.

Section Calls.

(** [scipy.stats.ttest_ind] as a call into the library: on two arrays it
    returns a statistic and a p-value, or it raises. *)
Variable ttest_ind : list fval -> list fval -> result (fval * fval).

(** The body of the loop of [compare_groups] (lines 96-115): the t-test is
    called first; what it raises leaves the function. *)
Definition compare_metric (group1_metrics group2_metrics : list DepletionMetrics)
    (alpha : fval) (m : (DepletionMetrics -> fval) * string)
  : result ComparisonResult :=
  let group1_values := map (fst m) group1_metrics in
  let group2_values := map (fst m) group2_metrics in
  let! tp := ttest_ind group1_values group2_values in
  let effect := calculate_cohens_d group1_values group2_values in
  Ok {| metric_name := snd m;
        group1_mean := np_mean group1_values;
        group2_mean := np_mean group2_values;
        group1_std := np_std 1 group1_values;
        group2_std := np_std 1 group2_values;
        t_statistic := fst tp;
        p_value := snd tp;
        significant := flt (snd tp) alpha;
        effect_size := effect |}.

(** The loop over the metrics to compare, [results] growing by one entry per
    metric. *)
Fixpoint compare_loop (group1_metrics group2_metrics : list DepletionMetrics)
    (alpha : fval) (ms : list ((DepletionMetrics -> fval) * string))
  : result (list ComparisonResult) :=
  match ms with
  | [] => Ok []
  | m :: rest =>
      let! r := compare_metric group1_metrics group2_metrics alpha m in
      let! rs := compare_loop group1_metrics group2_metrics alpha rest in
      Ok (r :: rs)
  end.

(** [compare_groups] *)
Definition compare_groups (group1_metrics group2_metrics : list DepletionMetrics)
    (alpha : fval) : result (list ComparisonResult) :=
  compare_loop group1_metrics group2_metrics alpha metrics_to_compare.

End Calls.

End LibraryCalls.

(** ** Batches of targets ([dash_analysis/dash_analyzer.py], continued) *)

Module Batch.
Import Num Analyzer.

(** [GRNATarget.length] *)
Definition length (target : GRNATarget) : Z := end_ target - start target.

(** [analyze_multiple_targets]: the targets are analysed in order; the first
    exception ends the loop. *)
Fixpoint analyze_multiple_targets (self : DASHAnalyzer) (targets : list GRNATarget)
  : result (list DepletionMetrics) :=
  match targets with
  | [] => Ok []
  | target :: rest =>
      let! metrics := analyze_grna_target self target in
      let! results := analyze_multiple_targets self rest in
      Ok (metrics :: results)
  end.

(** The depth that the pileup reports last for position [pos]; 0 when no
    column names that position. *)
Definition last_depth (columns : list (Z * Z)) (pos : Z) : Z :=
  fold_left (fun depth col => if fst col =? pos then snd col else depth) columns 0.

End Batch.

(** ** Design recommendations ([dash_analysis/dash_design_helper.py]) *)

Module Design.
Import Num Analyzer.

Record DesignRecommendation : Type := mkRecommendation {
  grna_name : string;
  severity : string;
  category : string;
  issue : string;
  recommendation : string;
  priority : Z
}.

(** [DASHDesignHelper.THRESHOLDS] *)
Definition THRESHOLDS : gmap string fval :=
  <["depletion_critical"%string := Fin (3 / 10)]>
  (<["depletion_warning"%string := Fin (6 / 10)]>
  (<["uniformity_critical"%string := Fin (3 / 10)]>
  (<["uniformity_warning"%string := Fin (5 / 10)]>
  (<["cv_warning"%string := Fin 1]>
  (<["cv_critical"%string := Fin 2]>
  (<["zero_coverage_low"%string := Fin (5 / 10)]> ∅)))))).

(** [THRESHOLDS[k]], for the keys the class defines. *)
Definition threshold (k : string) : fval :=
  match THRESHOLDS !! k with
  | Some v => v
  | None => NaN
  end.

(** Python's [>=] on floats. *)
Definition fge (a b : fval) : bool := fgt a b || feq a b.

Section Formatting.

(** The format specifications [:.3f] and [:.1%] of the f-strings. *)
Variable fmt_3f : fval -> string.
Variable fmt_pct : fval -> string.

(** [analyze_grna_performance]: six checks, each appending at most one
    recommendation. *)
Definition analyze_grna_performance (metrics : DepletionMetrics)
  : list DesignRecommendation :=
  let name := Analyzer.grna_name metrics in
  (if flt (depletion_efficiency metrics) (threshold "depletion_critical") then
     [ mkRecommendation name "critical" "Depletion Efficiency"
         ("Very low depletion efficiency (" ++ fmt_3f (depletion_efficiency metrics) ++ ")")
         "Consider complete redesign. Check: (1) gRNA sequence matches reference genome, (2) no off-target binding, (3) target region is accessible (not in heterochromatin)"
         5 ]
   else if flt (depletion_efficiency metrics) (threshold "depletion_warning") then
     [ mkRecommendation name "warning" "Depletion Efficiency"
         ("Moderate depletion efficiency (" ++ fmt_3f (depletion_efficiency metrics) ++ ")")
         "Consider optimization: (1) Try alternative target location, (2) Increase gRNA concentration, (3) Extend incubation time"
         3 ]
   else [])
  ++
  (if flt (coverage_uniformity metrics) (threshold "uniformity_critical") then
     [ mkRecommendation name "critical" "Coverage Uniformity"
         ("Very poor coverage uniformity (" ++ fmt_3f (coverage_uniformity metrics) ++ ")")
         "Uneven depletion suggests: (1) Strong secondary structures in target region - use RNA structure prediction tools, (2) Repetitive sequences causing mapping issues, (3) Consider using multiple shorter gRNAs instead"
         4 ]
   else if flt (coverage_uniformity metrics) (threshold "uniformity_warning") then
     [ mkRecommendation name "warning" "Coverage Uniformity"
         ("Moderate coverage uniformity (" ++ fmt_3f (coverage_uniformity metrics) ++ ")")
         "Check: (1) GC content is 40-60%, (2) Avoid strong hairpins, (3) Target region is not in low complexity sequence"
         3 ]
   else [])
  ++
  (if fgt (coefficient_of_variation metrics) (threshold "cv_critical") then
     [ mkRecommendation name "critical" "Coverage Variation"
         ("Very high coverage variation (CV="
          ++ fmt_3f (coefficient_of_variation metrics) ++ ")")
         "Highly inconsistent depletion. Possible causes: (1) PCR amplification bias, (2) Secondary structures, (3) Mapping artifacts. Consider redesigning target region"
         4 ]
   else if fgt (coefficient_of_variation metrics) (threshold "cv_warning") then
     [ mkRecommendation name "warning" "Coverage Variation"
         ("High coverage variation (CV="
          ++ fmt_3f (coefficient_of_variation metrics) ++ ")")
         "Moderate inconsistency in depletion. Consider: (1) Checking for repetitive elements, (2) Increasing sequencing depth"
         2 ]
   else [])
  ++
  (if flt (zero_coverage_fraction metrics) (threshold "zero_coverage_low")
      && fge (depletion_efficiency metrics) (Fin (5 / 10)) then
     [ mkRecommendation name "info" "Coverage Completeness"
         ("Incomplete depletion (only " ++ fmt_pct (zero_coverage_fraction metrics)
          ++ " bases with zero coverage)")
         "Consider: (1) Increasing DASH reaction time, (2) Increasing Cas9/gRNA concentration, (3) Using overlapping gRNAs for this region"
         2 ]
   else [])
  ++
  (if fgt (coefficient_of_variation metrics) (Fin (8 / 10))
      && flt (coverage_uniformity metrics) (Fin (6 / 10)) then
     [ mkRecommendation name "info" "Edge Effects"
         "Possible edge effects in coverage"
         "Extend target region by 50-100bp on each side to ensure complete coverage of intended region"
         2 ]
   else [])
  ++
  (if fgt (depletion_efficiency metrics) (Fin (8 / 10))
      && fgt (coverage_uniformity metrics) (Fin (7 / 10)) then
     [ mkRecommendation name "info" "Performance"
         "Excellent performance"
         "This gRNA shows excellent depletion efficiency and uniformity. No changes needed. Consider using similar design principles for other gRNAs."
         0 ]
   else []).

End Formatting.

End Design.

(** ** Loading annotations from BED ([calculate_overlap_percentage.py], continued) *)

Module Loader.
Import Overlap Num.

(** The tab character. *)
Definition tab : Ascii.ascii := Ascii.ascii_of_nat 9.

(** [s.split(sep)] for a one-character separator: never empty, one more
    piece than there are separators. *)
Fixpoint split (sep : Ascii.ascii) (s : string) : list string :=
  match s with
  | EmptyString => [EmptyString]
  | String c rest =>
      if Ascii.eqb c sep then EmptyString :: split sep rest
      else match split sep rest with
           | [] => [String c EmptyString]
           | piece :: pieces => String c piece :: pieces
           end
  end.

(** A BED record [(start, end, name)]; the name is always a string. *)
Definition bed_record : Type := Z * Z * string.

(** The order of Python tuples: by start, then end, then name. *)
Definition record_leb (a b : bed_record) : bool :=
  if fst (fst a) <? fst (fst b) then true
  else if fst (fst b) <? fst (fst a) then false
  else if snd (fst a) <? snd (fst b) then true
  else if snd (fst b) <? snd (fst a) then false
  else String.leb (snd a) (snd b).

(** [list.sort()]: the ascending arrangement; records that compare equal are
    identical tuples, so a stable insertion sort gives the list that Python's
    sort gives. *)
Fixpoint insert_record (a : bed_record) (l : list bed_record) : list bed_record :=
  match l with
  | [] => [a]
  | b :: rest => if record_leb a b then a :: l else b :: insert_record a rest
  end.

Definition sort_records (l : list bed_record) : list bed_record :=
  fold_right insert_record [] l.

(** The lines that the loop skips before looking at their fields. *)
Definition is_skipped (line : string) : bool :=
  String.prefix "#" line || String.prefix "track" line || String.prefix "browser" line.

Section Parsing.

(** [str.strip()], and [int(s)] with [None] for the [ValueError] of a string
    that is not an integer literal. *)
Variable strip : string -> string.
Variable py_int : string -> option Z.

(** The body of the loop over the lines of the file. *)
Definition add_line (annotations : gmap string (list bed_record)) (line : string)
  : result (gmap string (list bed_record)) :=
  if is_skipped line then Ok annotations
  else
    let fields := split tab (strip line) in
    if (length fields <? 3)%nat then Ok annotations
    else
      let chrom := nth 0 fields ""%string in
      match py_int (nth 1 fields ""%string) with
      | None => Raise ValueError
      | Some start =>
          match py_int (nth 2 fields ""%string) with
          | None => Raise ValueError
          | Some stop =>
              let name :=
                if (3 <? length fields)%nat then nth 3 fields ""%string
                else "unknown"%string in
              Ok (<[chrom := default [] (annotations !! chrom) ++ [(start, stop, name)]]>
                    annotations)
          end
      end.

Fixpoint read_lines (annotations : gmap string (list bed_record)) (lines : list string)
  : result (gmap string (list bed_record)) :=
  match lines with
  | [] => Ok annotations
  | line :: rest =>
      let! annotations' := add_line annotations line in
      read_lines annotations' rest
  end.

(** [load_annotations_from_bed], on the lines of the file. *)
Definition load_annotations_from_bed (lines : list string)
  : result (gmap string (list bed_record)) :=
  let! annotations := read_lines ∅ lines in
  Ok (sort_records <$> annotations).

(** What a line contributes: nothing, or a record for a chromosome. *)
Definition record_of_line (line : string) : option (string * bed_record) :=
  if is_skipped line then None
  else
    let fields := split tab (strip line) in
    if (length fields <? 3)%nat then None
    else
      match py_int (nth 1 fields ""%string), py_int (nth 2 fields ""%string) with
      | Some start, Some stop =>
          Some (nth 0 fields ""%string,
                (start, stop,
                 if (3 <? length fields)%nat then nth 3 fields ""%string
                 else "unknown"%string))
      | _, _ => None
      end.

(** A line with at least three fields whose start or end is not an integer. *)
Definition is_malformed (line : string) : bool :=
  negb (is_skipped line)
  && negb (length (split tab (strip line)) <? 3)%nat
  && match py_int (nth 1 (split tab (strip line)) ""%string),
           py_int (nth 2 (split tab (strip line)) ""%string) with
     | Some _, Some _ => false
     | _, _ => true
     end.

End Parsing.

(** A loaded record as an annotation of the overlap query. *)
Definition to_annotation (r : bed_record) : annotation :=
  (fst (fst r), snd (fst r), Some (snd r)).

Definition as_index (annotations : gmap string (list bed_record))
  : gmap string (list annotation) :=
  (map to_annotation) <$> annotations.

End Loader.

(** ** Sample data *)

Module Examples.
Import Overlap Num Analyzer Statistics.

(** A read on a chromosome that carries no annotation. *)
Definition read_chr2 : read :=
  mkRead false false false 60 true "chr2" 150 160.

(** Reads that the filters drop. *)
Definition read_low_mapq : read :=
  mkRead false false false 3 true "chr1" 150 160.

Definition read_unmapped : read :=
  mkRead true false false 60 false "chr1" 0 0.

(** Two targets with the same metrics. *)
Definition tied_a : DepletionMetrics :=
  mkMetrics "gRNA_a" ("chr1"%string, 0, 10) (Fin 5) (Fin 5) (Fin 1) (Fin 1) (Fin 1) (Fin 0).

Definition tied_b : DepletionMetrics :=
  mkMetrics "gRNA_b" ("chr1"%string, 20, 30) (Fin 5) (Fin 5) (Fin 1) (Fin 1) (Fin 1) (Fin 0).

(** A weak and a strong target: efficiency and uniformity 0 for one, 1 for the
    other. *)
Definition weak_target : DepletionMetrics :=
  mkMetrics "gRNA_weak" ("chr1"%string, 0, 10) (Fin 5) (Fin 5) (Fin 0) (Fin 0) (Fin 0) (Fin 0).

Definition strong_target : DepletionMetrics :=
  mkMetrics "gRNA_strong" ("chr1"%string, 20, 30) (Fin 5) (Fin 5) (Fin 1) (Fin 1) (Fin 1) (Fin 0).

(** The row of such a target in the scored frame. *)
Definition tied_row (nm : string) : score_row :=
  mkRow nm (Fin (4 / 10 * 1 + 3 / 10 * 1 + 2 / 10 * 1 + 1 / 10 * (1 / (1 + 0))))
        (Fin 1) (Fin 1) (Fin 1) (Fin 0).

End Examples.

(** ** Sample BED lines *)

Module BedSamples.
Import Loader.

(** A stand-in for [int] that knows the numbers of the sample lines. *)
Definition sample_int (s : string) : option Z :=
  if String.eqb s "100" then Some 100
  else if String.eqb s "200" then Some 200
  else if String.eqb s "300" then Some 300
  else if String.eqb s "400" then Some 400
  else None.

Definition tabbed (fields : list string) : string :=
  String.concat (String tab EmptyString) fields.

Definition line_gene_b : string := tabbed ["chr1"; "300"; "400"; "geneB"]%string.
Definition line_gene_a : string := tabbed ["chr1"; "100"; "200"; "geneA"]%string.
Definition line_comment : string := "# annotation track"%string.
Definition line_bad : string := tabbed ["chr1"; "abc"; "200"]%string.

End BedSamples.

(** ** Real-valued counterparts of the reductions *)

(** Sum of a list of reals, and the textbook mean and population deviation. *)
Definition Rsum (l : list R) : R := fold_right Rplus 0%R l.

Definition mean_R (l : list R) : R := (Rsum l / INR (length l))%R.

Definition sq_dev (l : list R) : R :=
  Rsum (map (fun x => ((x - mean_R l) * (x - mean_R l))%R) l).

Definition pstd_R (l : list R) : R := sqrt (sq_dev l / INR (length l)).

Definition reals (coverage : list Z) : list R := map IZR coverage.

(** * Properties *)

Import Overlap Num Percentage Analyzer Statistics Examples BedSamples.

(** ** The overlap scan *)

Lemma overlaps_spec (rs re : Z) (a : annotation) :
  overlaps rs re a = true <-> rs < ann_end a /\ re > ann_start a.
Proof.
  unfold overlaps. rewrite andb_true_iff, Z.ltb_lt, Z.gtb_gt. lia.
Qed.

Lemma any_overlap_spec (rs re : Z) (anns : list annotation) :
  any_overlap rs re anns = true <->
  exists a, In a anns /\ rs < ann_end a /\ re > ann_start a.
Proof.
  unfold any_overlap. rewrite existsb_exists.
  split; intros [a [Hin Ha]]; exists a; split; auto; now apply overlaps_spec.
Qed.

(** Past the point where the loop breaks, nothing overlaps. *)
Lemma no_overlap_after_break (rs re : Z) (a : annotation) (rest : list annotation) :
  sorted_by_start (a :: rest) ->
  ann_start a > re ->
  any_overlap rs re (a :: rest) = false.
Proof.
  intros Hs Hgt. apply StronglySorted_inv in Hs as [_ Hall].
  unfold any_overlap. simpl. apply orb_false_iff. split.
  - unfold overlaps. apply andb_false_iff. right. rewrite Z.gtb_ltb. apply Z.ltb_ge. lia.
  - apply not_true_is_false. intros Hex. apply existsb_exists in Hex as [b [Hin Hb]].
    rewrite List.Forall_forall in Hall. specialize (Hall b Hin).
    apply overlaps_spec in Hb. lia.
Qed.

Lemma check_overlap_any (rs re : Z) (anns : list annotation) :
  sorted_by_start anns -> check_overlap rs re anns = any_overlap rs re anns.
Proof.
  induction anns as [|a rest IH]; intros Hs; [reflexivity|].
  simpl. destruct (ann_start a >? re) eqn:Hbrk.
  - symmetry. apply no_overlap_after_break; [assumption|]. now apply Z.gtb_gt.
  - unfold any_overlap. simpl. destruct (overlaps rs re a); [reflexivity|].
    simpl. apply IH. now apply StronglySorted_inv in Hs.
Qed.

(** C1: on a list sorted by start, [check_overlap] answers true exactly when
    some annotation satisfies [read_start < ann_end] and [read_end > ann_start];
    the early exit gives the same answer as the full scan; and on
    [{(100,200),(300,400)}] the queries (150,160), (250,260) and (199,205)
    answer true, false and true. *)
Theorem check_overlap_correct (rs re : Z) (anns : list annotation)
    (Hsorted : sorted_by_start anns) :
  (check_overlap rs re anns = true <->
     exists a, In a anns /\ rs < ann_end a /\ re > ann_start a) /\
  check_overlap rs re anns = any_overlap rs re anns /\
  check_overlap 150 160 [(100, 200, None); (300, 400, None)] = true /\
  check_overlap 250 260 [(100, 200, None); (300, 400, None)] = false /\
  check_overlap 199 205 [(100, 200, None); (300, 400, None)] = true.
Proof.
  split; [|split; [|repeat split; reflexivity]].
  - rewrite check_overlap_any by assumption. apply any_overlap_spec.
  - now apply check_overlap_any.
Qed.

Lemma check_overlap_correct_witness :
  sorted_by_start [(100, 200, None); (300, 400, None)] /\
  (check_overlap 250 260 [(100, 200, None); (300, 400, None)] = true <->
     exists a, In a [(100, 200, None); (300, 400, None)] /\
               250 < ann_end a /\ 260 > ann_start a).
Proof.
  assert (Hs : sorted_by_start [(100, 200, None); (300, 400, None)]).
  { unfold sorted_by_start, ann_start. repeat constructor; simpl; lia. }
  split; [exact Hs|].
  exact (proj1 (check_overlap_correct 250 260 _ Hs)).
Defined.

(** ** The read loop *)

(** C7: a read whose chromosome is not a key of the annotation index is
    counted as not overlapping, whatever the index holds: the lookup misses,
    [overlapping_reads] is unchanged, and [total_reads] still counts the read
    when it passes the filters.  The model is a total function: no exception. *)
Theorem absent_chromosome_no_overlap
    (annotations : gmap string (list annotation)) (r : read)
    (min_mapq : Z) (require_proper_pair : bool) (st : counters)
    (Habsent : annotations !! reference_name r = None) :
  read_overlaps annotations r = false /\
  snd (process_read annotations min_mapq require_proper_pair st r) = snd st /\
  (passes_filters min_mapq require_proper_pair r = true ->
   fst (process_read annotations min_mapq require_proper_pair st r) = fst st + 1).
Proof.
  assert (Hno : read_overlaps annotations r = false).
  { unfold read_overlaps. now rewrite Habsent. }
  split; [exact Hno|]. unfold process_read. rewrite Hno.
  destruct (passes_filters min_mapq require_proper_pair r); simpl; auto.
  split; [reflexivity|discriminate].
Qed.

Lemma absent_chromosome_no_overlap_witness :
  ({["chr1"%string := [(100, 200, None)]]} : gmap string (list annotation))
    !! reference_name read_chr2 = None /\
  read_overlaps {["chr1"%string := [(100, 200, None)]]} read_chr2 = false.
Proof.
  assert (H : ({["chr1"%string := [(100, 200, None)]]}
                : gmap string (list annotation)) !! reference_name read_chr2 = None).
  { apply lookup_singleton_ne. discriminate. }
  split; [exact H|].
  exact (proj1 (absent_chromosome_no_overlap _ read_chr2 0 false (0, 0) H)).
Defined.

Lemma count_reads_none_pass (annotations : gmap string (list annotation))
    (min_mapq : Z) (require_proper_pair : bool) (reads : list read) (st : counters) :
  Forall (fun r => passes_filters min_mapq require_proper_pair r = false) reads ->
  fold_left (process_read annotations min_mapq require_proper_pair) reads st = st.
Proof.
  intros Hall. revert st. induction Hall as [|r rest Hr _ IH]; intros st.
  - reflexivity.
  - simpl. unfold process_read at 2. rewrite Hr. apply IH.
Qed.

(** C10: when no read passes the filters, [calculate_overlap_percentage]
    returns [(0, 0, 0)] and raises nothing, although at these counters the
    division by [total_reads] raises [ZeroDivisionError]: the conditional of
    line 177 keeps it from being evaluated. *)
Theorem no_reads_pass_zero_percentage
    (reads : list read) (annotations : gmap string (list annotation))
    (min_mapq : Z) (require_proper_pair : bool)
    (Hnone : Forall (fun r => passes_filters min_mapq require_proper_pair r = false)
                    reads) :
  calculate_overlap_percentage reads annotations min_mapq require_proper_pair
    = Ok (0, 0, 0%R) /\
  count_reads annotations min_mapq require_proper_pair reads = (0, 0) /\
  int_truediv (snd (count_reads annotations min_mapq require_proper_pair reads))
              (fst (count_reads annotations min_mapq require_proper_pair reads))
    = Raise ZeroDivisionError.
Proof.
  assert (Hst : count_reads annotations min_mapq require_proper_pair reads = (0, 0)).
  { unfold count_reads. now apply count_reads_none_pass. }
  unfold calculate_overlap_percentage. rewrite Hst.
  repeat split; reflexivity.
Qed.

Lemma no_reads_pass_zero_percentage_witness :
  Forall (fun r => passes_filters 20 false r = false) [read_low_mapq; read_unmapped] /\
  calculate_overlap_percentage [read_low_mapq; read_unmapped]
    {["chr1"%string := [(100, 200, None)]]} 20 false = Ok (0, 0, 0%R).
Proof.
  assert (H : Forall (fun r => passes_filters 20 false r = false)
                     [read_low_mapq; read_unmapped]).
  { repeat constructor. }
  split; [exact H|].
  exact (proj1 (no_reads_pass_zero_percentage _ _ 20 false H)).
Defined.

(** ** Arithmetic of [fval] on finite values *)

Lemma Rltb_true (x y : R) : (x < y)%R -> Rltb x y = true.
Proof. intros H. unfold Rltb. destruct (Rlt_dec x y); [reflexivity|contradiction]. Qed.

Lemma Rltb_false (x y : R) : (y <= x)%R -> Rltb x y = false.
Proof. intros H. unfold Rltb. destruct (Rlt_dec x y); [lra|reflexivity]. Qed.

Lemma Reqb_true (x y : R) : x = y -> Reqb x y = true.
Proof. intros H. unfold Reqb. destruct (Req_dec_T x y); [reflexivity|contradiction]. Qed.

Lemma Reqb_false (x y : R) : x <> y -> Reqb x y = false.
Proof. intros H. unfold Reqb. destruct (Req_dec_T x y); [contradiction|reflexivity]. Qed.

Lemma Rltb_lt (x y : R) : Rltb x y = true <-> (x < y)%R.
Proof. unfold Rltb. destruct (Rlt_dec x y); split; auto; discriminate. Qed.

Lemma Reqb_eq (x y : R) : Reqb x y = true <-> x = y.
Proof. unfold Reqb. destruct (Req_dec_T x y); split; auto; discriminate. Qed.

(** Decide the comparisons of real constants that a goal contains. *)
Ltac rdecide :=
  repeat match goal with
    | |- context [Rltb ?x ?y] =>
        first [ rewrite (Rltb_true x y) by lra | rewrite (Rltb_false x y) by lra ]
    | |- context [Reqb ?x ?y] =>
        first [ rewrite (Reqb_true x y) by lra | rewrite (Reqb_false x y) by lra ]
    end.

Lemma fold_fadd_Fin (l : list R) (a : R) :
  fold_left fadd (map Fin l) (Fin a) = Fin (a + Rsum l).
Proof.
  revert a. induction l as [|x l IH]; intros a; simpl.
  - f_equal. lra.
  - rewrite IH. f_equal. lra.
Qed.

Lemma np_sum_Fin (l : list R) : np_sum (map Fin l) = Fin (Rsum l).
Proof. unfold np_sum. rewrite fold_fadd_Fin. f_equal. lra. Qed.

Lemma np_mean_nil : np_mean [] = NaN.
Proof.
  unfold np_mean, np_sum, of_nat, fdiv, inf_of_sign. simpl. now rdecide.
Qed.

Lemma INR_length_pos {A : Type} (l : list A) : l <> [] -> (0 < INR (length l))%R.
Proof.
  intros Hne. destruct l as [|x l]; [contradiction|].
  apply lt_0_INR. simpl. lia.
Qed.

Lemma np_mean_Fin (l : list R) :
  l <> [] -> np_mean (map Fin l) = Fin (mean_R l).
Proof.
  intros Hne. unfold np_mean, of_nat, fdiv. rewrite np_sum_Fin, length_map.
  pose proof (INR_length_pos l Hne). rewrite Reqb_false by lra. reflexivity.
Qed.

Lemma np_var_Fin (ddof : nat) (l : list R) :
  (ddof < length l)%nat ->
  np_var ddof (map Fin l) = Fin (sq_dev l / INR (length l - ddof)).
Proof.
  intros Hlen. assert (Hne : l <> []) by (intros ->; simpl in Hlen; lia).
  unfold np_var. rewrite np_mean_Fin by assumption. rewrite map_map.
  replace (map (fun x => fmul (fsub (Fin x) (Fin (mean_R l))) (fsub (Fin x) (Fin (mean_R l)))) l)
    with (map Fin (map (fun x => ((x - mean_R l) * (x - mean_R l))%R) l)).
  2:{ rewrite map_map. apply map_ext. intros x. simpl. reflexivity. }
  rewrite np_sum_Fin, length_map. unfold of_nat, fdiv.
  assert (0 < INR (length l - ddof))%R by (apply lt_0_INR; lia).
  rewrite Reqb_false by lra. reflexivity.
Qed.

Lemma Rsum_nonneg (l : list R) : Forall (fun x => (0 <= x)%R) l -> (0 <= Rsum l)%R.
Proof.
  induction 1 as [|x l Hx _ IH]; simpl in *; lra.
Qed.

Lemma sq_dev_nonneg (l : list R) : (0 <= sq_dev l)%R.
Proof.
  unfold sq_dev. apply Rsum_nonneg. apply List.Forall_forall. intros y Hy.
  apply in_map_iff in Hy as [x [<- _]]. apply Rle_0_sqr.
Qed.

Lemma np_std_Fin (ddof : nat) (l : list R) :
  (ddof < length l)%nat ->
  np_std ddof (map Fin l) = Fin (sqrt (sq_dev l / INR (length l - ddof))).
Proof.
  intros Hlen. unfold np_std. rewrite np_var_Fin by assumption. unfold fsqrt.
  assert (0 < INR (length l - ddof))%R by (apply lt_0_INR; lia).
  pose proof (sq_dev_nonneg l).
  rewrite Rltb_false; [reflexivity|].
  apply Rmult_le_pos; [assumption|]. left. now apply Rinv_0_lt_compat.
Qed.

Lemma as_float_reals (coverage : list Z) : as_float coverage = map Fin (reals coverage).
Proof. unfold as_float, reals. rewrite map_map. reflexivity. Qed.

Lemma reals_nil_iff (coverage : list Z) : reals coverage = [] <-> coverage = [].
Proof. destruct coverage; simpl; split; congruence. Qed.

Lemma np_mean_coverage (coverage : list Z) :
  coverage <> [] -> np_mean (as_float coverage) = Fin (mean_R (reals coverage)).
Proof.
  intros Hne. rewrite as_float_reals. apply np_mean_Fin.
  now rewrite reals_nil_iff.
Qed.

Lemma np_std_coverage (coverage : list Z) :
  coverage <> [] -> np_std 0 (as_float coverage) = Fin (pstd_R (reals coverage)).
Proof.
  intros Hne. rewrite as_float_reals. rewrite np_std_Fin.
  - unfold pstd_R. now rewrite Nat.sub_0_r.
  - unfold reals. rewrite length_map. destruct coverage; [contradiction|simpl; lia].
Qed.

(** ** Uniformity *)

Lemma reals_nonneg (coverage : list Z) :
  Forall (fun d => 0 <= d) coverage -> Forall (fun x => (0 <= x)%R) (reals coverage).
Proof.
  induction 1 as [|d l Hd _ IH]; simpl; constructor; [|assumption].
  now apply IZR_le.
Qed.

Lemma mean_R_nonneg (l : list R) :
  l <> [] -> Forall (fun x => (0 <= x)%R) l -> (0 <= mean_R l)%R.
Proof.
  intros Hne Hnn. unfold mean_R. pose proof (INR_length_pos l Hne).
  pose proof (Rsum_nonneg l Hnn). apply Rmult_le_pos; [assumption|].
  left. now apply Rinv_0_lt_compat.
Qed.

Lemma Rsum_flat (l : list R) (c : R) :
  (forall x, In x l -> x = c) -> Rsum l = (INR (length l) * c)%R.
Proof.
  induction l as [|x l IH]; intros Hall.
  - simpl. lra.
  - change (Rsum (x :: l)) with (x + Rsum l)%R.
    change (length (x :: l)) with (S (length l)). rewrite S_INR.
    rewrite IH by (intros y Hy; apply Hall; now right).
    rewrite (Hall x) by now left. lra.
Qed.

Lemma mean_R_flat (l : list R) (c : R) :
  l <> [] -> (forall x, In x l -> x = c) -> mean_R l = c.
Proof.
  intros Hne Hall. unfold mean_R. rewrite (Rsum_flat l c Hall).
  pose proof (INR_length_pos l Hne). field. lra.
Qed.

Lemma pstd_R_flat (l : list R) (c : R) :
  l <> [] -> (forall x, In x l -> x = c) -> pstd_R l = 0%R.
Proof.
  intros Hne Hall. unfold pstd_R, sq_dev.
  rewrite (Rsum_flat _ 0%R).
  - rewrite Rmult_0_r. unfold Rdiv. rewrite Rmult_0_l. apply sqrt_0.
  - intros y Hy. apply in_map_iff in Hy as [x [<- Hx]].
    rewrite (mean_R_flat l c Hne Hall), (Hall x Hx). lra.
Qed.

Lemma pstd_R_nonneg (l : list R) : (0 <= pstd_R l)%R.
Proof. unfold pstd_R. apply sqrt_pos. Qed.

Lemma uniformity_value (coverage : list Z) :
  coverage <> [] ->
  (0 < mean_R (reals coverage))%R ->
  calculate_uniformity coverage =
  Fin (1 / (1 + pstd_R (reals coverage) / mean_R (reals coverage))).
Proof.
  intros Hne Hpos. unfold calculate_uniformity.
  destruct coverage as [|d l] eqn:Hc; [contradiction|]. rewrite <- Hc in *.
  assert (Hlen : (length coverage =? 0)%nat = false) by (subst; reflexivity).
  rewrite Hlen, np_mean_coverage, np_std_coverage by assumption.
  pose proof (pstd_R_nonneg (reals coverage)) as Hs.
  set (m := mean_R (reals coverage)) in *. set (s := pstd_R (reals coverage)) in *.
  assert (Hcv : (0 <= s / m)%R).
  { apply Rmult_le_pos; [assumption|]. left. now apply Rinv_0_lt_compat. }
  simpl. rewrite (Reqb_false m 0) by lra.
  rewrite (Reqb_false (1 + s / m) 0) by lra. reflexivity.
Qed.

(** C6: for a coverage array (depths are non-negative), [calculate_uniformity]
    is 0 when the array is empty or its mean is 0; otherwise it is
    [1 / (1 + cv)] with [cv] the population standard deviation over the mean,
    a value in (0, 1] that is 1 for flat coverage; and it is 1 on [5,5,5,5]. *)
Theorem uniformity_correct (coverage : list Z)
    (Hdepth : Forall (fun d => 0 <= d) coverage) :
  (coverage = [] \/ mean_R (reals coverage) = 0%R ->
   calculate_uniformity coverage = Fin 0) /\
  (coverage <> [] -> mean_R (reals coverage) <> 0%R ->
   calculate_uniformity coverage =
     Fin (1 / (1 + pstd_R (reals coverage) / mean_R (reals coverage))) /\
   (0 < 1 / (1 + pstd_R (reals coverage) / mean_R (reals coverage)) <= 1)%R /\
   ((forall d, In d coverage -> d = hd 0 coverage) ->
    calculate_uniformity coverage = Fin 1)) /\
  calculate_uniformity [5; 5; 5; 5] = Fin 1.
Proof.
  split; [|split].
  - intros [-> | Hmean]; [reflexivity|].
    unfold calculate_uniformity. destruct coverage as [|d l]; [reflexivity|].
    rewrite np_mean_coverage by discriminate. rewrite Hmean.
    simpl. now rewrite Reqb_true.
  - intros Hne Hmean.
    assert (Hpos : (0 < mean_R (reals coverage))%R).
    { pose proof (mean_R_nonneg (reals coverage)) as H.
      rewrite reals_nil_iff in H. specialize (H Hne (reals_nonneg _ Hdepth)). lra. }
    pose proof (pstd_R_nonneg (reals coverage)) as Hs.
    set (m := mean_R (reals coverage)) in *. set (s := pstd_R (reals coverage)) in *.
    assert (Hcv : (0 <= s / m)%R).
    { apply Rmult_le_pos; [assumption|]. left. now apply Rinv_0_lt_compat. }
    split; [now apply uniformity_value|]. split.
    + split.
      * apply Rdiv_lt_0_compat; lra.
      * unfold Rdiv. rewrite Rmult_1_l. apply Rle_trans with (/ 1)%R.
        -- apply Rinv_le_contravar; lra.
        -- rewrite Rinv_1. lra.
    + intros Hflat. rewrite uniformity_value by assumption. fold m s.
      assert (Hz : s = 0%R).
      { unfold s. apply (pstd_R_flat _ (IZR (hd 0 coverage))).
        - now rewrite reals_nil_iff.
        - intros x Hx. unfold reals in Hx. apply in_map_iff in Hx as [d [<- Hd]].
          now rewrite (Hflat d Hd). }
      rewrite Hz. f_equal. unfold Rdiv. rewrite Rmult_0_l, Rplus_0_r. lra.
  - assert (Hm : mean_R (reals [5; 5; 5; 5]) = 5%R).
    { apply mean_R_flat; [discriminate|]. simpl. intuition (subst; reflexivity). }
    rewrite uniformity_value; [|discriminate|rewrite Hm; lra].
    rewrite (pstd_R_flat _ 5%R); [|discriminate|simpl; intuition (subst; reflexivity)].
    f_equal. unfold Rdiv. rewrite Rmult_0_l, Rplus_0_r. lra.
Qed.

Lemma uniformity_correct_witness :
  Forall (fun d => 0 <= d) [3; 7; 0; 2] /\
  (0 < 1 / (1 + pstd_R (reals [3; 7; 0; 2]%Z) / mean_R (reals [3; 7; 0; 2]%Z)) <= 1)%R.
Proof.
  assert (H : Forall (fun d => 0 <= d) [3; 7; 0; 2]).
  { repeat constructor; lia. }
  split; [exact H|].
  assert (Hm : mean_R (reals [3; 7; 0; 2]) = 3%R).
  { unfold mean_R, Rsum. simpl. lra. }
  refine (proj1 (proj2 (proj1 (proj2 (uniformity_correct [3; 7; 0; 2] H)) _ _))).
  - discriminate.
  - rewrite Hm. lra.
Defined.

(** ** Depletion efficiency *)

Lemma py_min_Fin (a b : R) : py_min (Fin a) (Fin b) = Fin (Rmin a b).
Proof.
  unfold py_min, flt, Rltb, Rmin.
  destruct (Rlt_dec b a), (Rle_dec a b); try reflexivity; try lra.
Qed.

Lemma py_max_Fin (a b : R) : py_max (Fin a) (Fin b) = Fin (Rmax a b).
Proof.
  unfold py_max, fgt, flt, Rltb, Rmax.
  destruct (Rlt_dec a b), (Rle_dec a b); try reflexivity; try lra.
  f_equal. lra.
Qed.

Lemma clip_Fin (x : R) : clip (Fin 0) (Fin 1) (Fin x) = Fin (Rmax 0 (Rmin 1 x)).
Proof. unfold clip. now rewrite py_min_Fin, py_max_Fin. Qed.

(** Whatever the efficiency is, NaN and the infinities included, [max(0.0,
    min(1.0, efficiency))] is a finite number between 0 and 1. *)
Lemma clip_unit_interval (e : fval) :
  exists d, py_max (Fin 0) (py_min (Fin 1) e) = Fin d /\ (0 <= d <= 1)%R.
Proof.
  unfold py_max, py_min, fgt.
  destruct e as [x| | |]; cbn [flt].
  - unfold Rltb. destruct (Rlt_dec x 1); cbn [flt]; unfold Rltb.
    + destruct (Rlt_dec 0 x); eexists; (split; [reflexivity|lra]).
    + destruct (Rlt_dec 0 1); eexists; (split; [reflexivity|lra]).
  - cbn [flt]. unfold Rltb. destruct (Rlt_dec 0 1); eexists; (split; [reflexivity|lra]).
  - eexists. split; [reflexivity|lra].
  - cbn [flt]. unfold Rltb. destruct (Rlt_dec 0 1); eexists; (split; [reflexivity|lra]).
Qed.

Lemma depletion_with_control (treated control : list Z) :
  treated <> [] -> control <> [] ->
  calculate_depletion_efficiency treated (Some control) =
  if Reqb (mean_R (reals control)) 0 then Fin 0
  else Fin (Rmax 0 (Rmin 1 (1 - mean_R (reals treated) / mean_R (reals control)))).
Proof.
  intros Ht Hc. unfold calculate_depletion_efficiency.
  rewrite !np_mean_coverage by assumption. cbn [feq].
  destruct (Reqb (mean_R (reals control)) 0) eqn:Hm; [reflexivity|].
  cbn [fdiv]. rewrite Hm. cbn [fsub fneg fadd].
  rewrite py_min_Fin, py_max_Fin. reflexivity.
Qed.

Lemma spec_depletion_with_control (treated control : list Z) :
  treated <> [] -> control <> [] ->
  spec_depletion_efficiency treated (Some control) =
  if Reqb (mean_R (reals control)) 0 then Fin 0
  else Fin (Rmax 0 (Rmin 1 (1 - mean_R (reals treated) / mean_R (reals control)))).
Proof.
  intros Ht Hc. unfold spec_depletion_efficiency.
  rewrite !np_mean_coverage by assumption. cbn [feq].
  destruct (Reqb (mean_R (reals control)) 0) eqn:Hm; [reflexivity|].
  cbn [fdiv]. rewrite Hm. cbn [fsub fneg fadd].
  apply clip_Fin.
Qed.

Lemma depletion_without_control (treated : list Z) :
  treated <> [] ->
  calculate_depletion_efficiency treated None =
  Fin (INR (count_zero treated) / INR (length treated)).
Proof.
  intros Ht. unfold calculate_depletion_efficiency.
  destruct treated as [|d l]; [contradiction|].
  change (length (d :: l) =? 0)%nat with false. cbv iota.
  unfold of_nat, fdiv. rewrite Reqb_false; [reflexivity|].
  pose proof (INR_length_pos (d :: l) Ht). lra.
Qed.

(** C5: with a control array the efficiency is 0 when the control mean is 0
    and otherwise [clip(1 - mean(treated) / mean(control), 0, 1)]; without
    one it is [count(treated == 0) / len(treated)], and 0 for an empty treated
    array.  For every pair of arrays the result with a control is a finite
    number in [0, 1]: no division by zero shows in it.  On non-empty arrays
    the clipped value is the real number [max(0, min(1, 1 - mean(treated) /
    mean(control)))].  Treated [0,0,0,0] against control [10,10,10,10] gives 1
    and treated [10,10,10,10] against control [0,0,0,0] gives 0. *)
Theorem depletion_efficiency_correct (treated control : list Z) :
  calculate_depletion_efficiency treated (Some control) =
    (if feq (np_mean (as_float control)) (Fin 0) then Fin 0
     else clip (Fin 0) (Fin 1)
            (fsub (Fin 1)
               (fdiv (np_mean (as_float treated)) (np_mean (as_float control))))) /\
  calculate_depletion_efficiency treated (Some control) =
    spec_depletion_efficiency treated (Some control) /\
  calculate_depletion_efficiency treated None = spec_depletion_efficiency treated None /\
  (exists d, calculate_depletion_efficiency treated (Some control) = Fin d /\
             (0 <= d <= 1)%R) /\
  (treated <> [] -> control <> [] ->
   calculate_depletion_efficiency treated (Some control) =
     (if Reqb (mean_R (reals control)) 0 then Fin 0
      else Fin (Rmax 0 (Rmin 1 (1 - mean_R (reals treated) / mean_R (reals control)))))) /\
  (treated <> [] ->
   calculate_depletion_efficiency treated None =
     Fin (INR (count_zero treated) / INR (length treated))) /\
  calculate_depletion_efficiency [] None = Fin 0 /\
  calculate_depletion_efficiency [0; 0; 0; 0] (Some [10; 10; 10; 10]) = Fin 1 /\
  calculate_depletion_efficiency [10; 10; 10; 10] (Some [0; 0; 0; 0]) = Fin 0.
Proof.
  split; [reflexivity|]. split; [reflexivity|].
  split; [destruct treated; reflexivity|].
  split.
  { unfold calculate_depletion_efficiency.
    destruct (feq (np_mean (as_float control)) (Fin 0)).
    - exists 0%R. split; [reflexivity|lra].
    - apply clip_unit_interval. }
  split; [apply depletion_with_control|].
  split; [apply depletion_without_control|].
  split; [reflexivity|]. split.
  - rewrite depletion_with_control by discriminate.
    assert (Hc : mean_R (reals [10; 10; 10; 10]) = 10%R)
      by (unfold mean_R, Rsum; simpl; lra).
    assert (Ht : mean_R (reals [0; 0; 0; 0]) = 0%R)
      by (unfold mean_R, Rsum; simpl; lra).
    rewrite Hc, Ht, Reqb_false by lra.
    f_equal. unfold Rmax, Rmin.
    destruct (Rle_dec 1 (1 - 0 / 10)), (Rle_dec 0 1); try lra;
      destruct (Rle_dec 0 (1 - 0 / 10)); lra.
  - rewrite depletion_with_control by discriminate.
    assert (Hc : mean_R (reals [0; 0; 0; 0]) = 0%R)
      by (unfold mean_R, Rsum; simpl; lra).
    now rewrite Hc, Reqb_true.
Qed.

Lemma depletion_efficiency_correct_witness :
  [2; 0; 4]%Z <> [] /\ [4; 4; 4]%Z <> [] /\
  calculate_depletion_efficiency [2; 0; 4] (Some [4; 4; 4]) =
    (if Reqb (mean_R (reals [4; 4; 4])) 0 then Fin 0
     else Fin (Rmax 0 (Rmin 1 (1 - mean_R (reals [2; 0; 4]) / mean_R (reals [4; 4; 4]))))) /\
  calculate_depletion_efficiency [2; 0; 4] None =
    Fin (INR (count_zero [2; 0; 4]) / INR (length [2; 0; 4]%Z)).
Proof.
  assert (Ht : [2; 0; 4]%Z <> []) by discriminate.
  assert (Hc : [4; 4; 4]%Z <> []) by discriminate.
  split; [exact Ht|]. split; [exact Hc|]. split.
  - exact (proj1 (proj2 (proj2 (proj2 (proj2
             (depletion_efficiency_correct [2; 0; 4] [4; 4; 4]))))) Ht Hc).
  - exact (proj1 (proj2 (proj2 (proj2 (proj2 (proj2
             (depletion_efficiency_correct [2; 0; 4] [4; 4; 4])))))) Ht).
Defined.

(** ** Analysis of a target of length zero *)

Lemma get_coverage_empty (src : pileup_source) (c : string) (s : Z) :
  get_coverage src c s s = Ok [].
Proof.
  unfold get_coverage. rewrite Z.sub_diag. simpl.
  induction (src c s s) as [|col cols IH]; [reflexivity|].
  simpl. destruct ((s <=? fst col) && (fst col <? s)); [|exact IH].
  destruct (Z.to_nat (fst col - s)); exact IH.
Qed.

Lemma depletion_empty_with_control :
  calculate_depletion_efficiency [] (Some []) = Fin 1.
Proof.
  unfold calculate_depletion_efficiency.
  change (as_float []) with (@nil fval). rewrite np_mean_nil.
  unfold feq, fdiv, fsub, fneg, fadd, py_min, py_max, fgt, flt.
  now rdecide.
Qed.

(** C2 (the code at the failing input): for a target with [end == start] the
    coverage array is empty and [analyze_grna_target] returns a record whose
    mean and median coverage are NaN; with a control file its depletion
    efficiency is 1.  The record is neither all-zero nor finite. *)
Theorem analyze_empty_target_nan (self : DASHAnalyzer) (target : GRNATarget)
    (Hempty : end_ target = start target) :
  exists m : DepletionMetrics,
    analyze_grna_target self target = Ok m /\
    mean_coverage m = NaN /\
    median_coverage m = NaN /\
    coverage_uniformity m = Fin 0 /\
    zero_coverage_fraction m = Fin 0 /\
    coefficient_of_variation m = Fin 0 /\
    depletion_efficiency m =
      (match control_bam self with Some _ => Fin 1 | None => Fin 0 end) /\
    all_finite m = false /\
    ~ all_zero_metrics m.
Proof.
  unfold analyze_grna_target. rewrite Hempty, get_coverage_empty.
  destruct (control_bam self) as [cb|] eqn:Hcb.
  - rewrite get_coverage_empty. cbn [bind]. eexists. split; [reflexivity|].
    cbn [mean_coverage median_coverage coverage_uniformity zero_coverage_fraction
         coefficient_of_variation depletion_efficiency all_finite].
    change (as_float []) with (@nil fval). rewrite np_mean_nil.
    rewrite depletion_empty_with_control.
    repeat split; try reflexivity.
    intros [Hm _]. cbn [mean_coverage] in Hm. discriminate.
  - cbn [bind]. eexists. split; [reflexivity|].
    cbn [mean_coverage median_coverage coverage_uniformity zero_coverage_fraction
         coefficient_of_variation depletion_efficiency all_finite].
    change (as_float []) with (@nil fval). rewrite np_mean_nil.
    repeat split; try reflexivity.
    intros [Hm _]. cbn [mean_coverage] in Hm. discriminate.
Qed.

Lemma analyze_empty_target_nan_witness :
  end_ (mkTarget "gRNA1" "chr1" 100 100) = start (mkTarget "gRNA1" "chr1" 100 100) /\
  exists m : DepletionMetrics,
    analyze_grna_target (mkAnalyzer (fun _ _ _ => []) None)
                        (mkTarget "gRNA1" "chr1" 100 100) = Ok m /\
    mean_coverage m = NaN.
Proof.
  split; [reflexivity|].
  destruct (analyze_empty_target_nan (mkAnalyzer (fun _ _ _ => []) None)
              (mkTarget "gRNA1" "chr1" 100 100) eq_refl) as [m [Hm [Hmean _]]].
  exists m. split; assumption.
Defined.

(** ** Outliers *)

Lemma z_score_zero_std (x mean : fval) : z_score x mean (Fin 0) = Fin 0.
Proof. unfold z_score, fgt, flt. now rdecide. Qed.

Lemma above_and_below_exclusive (z n : fval) :
  fgt n (Fin 0) = true -> fgt z n = true -> flt z (fneg n) = true -> False.
Proof.
  unfold fgt. destruct n as [x| | |]; destruct z as [y| | |]; simpl;
    try discriminate; rewrite ?Rltb_lt; intros; lra.
Qed.

Lemma zero_not_above (n : fval) : flt n (Fin 0) = false ->
  fgt (Fin 0) n = false /\ flt (Fin 0) (fneg n) = false.
Proof.
  unfold fgt. destruct n as [x| | |]; simpl; try discriminate; auto.
  unfold Rltb. destruct (Rlt_dec x 0), (Rlt_dec 0 (- x)); try discriminate; auto; lra.
Qed.

Lemma z_score_positive_std (a mu sd : R) :
  (0 < sd)%R -> z_score (Fin a) (Fin mu) (Fin sd) = Fin ((a - mu) / sd).
Proof.
  intros Hs. unfold z_score, fgt, flt. rewrite Rltb_true by assumption.
  unfold fsub, fneg, fadd, fdiv. rewrite Reqb_false by lra. reflexivity.
Qed.

Lemma population_moments (vals : list fval) (xs : list R) :
  xs <> [] -> vals = map Fin xs ->
  np_mean vals = Fin (mean_R xs) /\ np_std 0 vals = Fin (pstd_R xs).
Proof.
  intros Hne ->. split; [now apply np_mean_Fin|].
  rewrite np_std_Fin.
  - unfold pstd_R. now rewrite Nat.sub_0_r.
  - destruct xs; [contradiction|simpl; lia].
Qed.

Lemma np_std_singleton (x : R) : np_std 0 [Fin x] = Fin 0.
Proof.
  change [Fin x] with (map Fin [x]). rewrite np_std_Fin by (simpl; lia).
  f_equal. change (sqrt (sq_dev [x] / INR (length [x] - 0))) with (pstd_R [x]).
  apply (pstd_R_flat [x] x); [discriminate|].
  intros y [<-|[]]. reflexivity.
Qed.

Lemma mean_R_zero_one : mean_R [0; 1]%R = (1 / 2)%R.
Proof. unfold mean_R, Rsum. simpl. lra. Qed.

Lemma pstd_R_zero_one : pstd_R [0; 1]%R = (1 / 2)%R.
Proof.
  unfold pstd_R, sq_dev. rewrite mean_R_zero_one. unfold Rsum. simpl.
  apply sqrt_lem_1; lra.
Qed.

(** C8 (as amended): the mean and the deviation are those of the population
    (divisor N) of the list's values; a z-score is [(x - mean) / std] of the
    target's value when the deviation is positive and 0 otherwise, so 0 when
    the deviation is 0; the high performers are the targets whose two
    z-scores both exceed [n_std], the low performers those with a z-score
    below [-n_std]; for [n_std > 0] no target is both; and for [n_std >= 0] a
    metric of zero deviation flags nothing. *)
Theorem identify_outliers_correct
    (metrics_list : list DepletionMetrics) (n_std : fval) :
  (forall xs : list R, xs <> [] ->
     map depletion_efficiency metrics_list = map Fin xs ->
     np_mean (map depletion_efficiency metrics_list) = Fin (mean_R xs) /\
     np_std 0 (map depletion_efficiency metrics_list) = Fin (pstd_R xs)) /\
  (forall xs : list R, xs <> [] ->
     map coverage_uniformity metrics_list = map Fin xs ->
     np_mean (map coverage_uniformity metrics_list) = Fin (mean_R xs) /\
     np_std 0 (map coverage_uniformity metrics_list) = Fin (pstd_R xs)) /\
  (forall m,
     depletion_z metrics_list m =
       (if fgt (np_std 0 (map depletion_efficiency metrics_list)) (Fin 0)
        then fdiv (fsub (depletion_efficiency m)
                        (np_mean (map depletion_efficiency metrics_list)))
                  (np_std 0 (map depletion_efficiency metrics_list))
        else Fin 0) /\
     uniformity_z metrics_list m =
       (if fgt (np_std 0 (map coverage_uniformity metrics_list)) (Fin 0)
        then fdiv (fsub (coverage_uniformity m)
                        (np_mean (map coverage_uniformity metrics_list)))
                  (np_std 0 (map coverage_uniformity metrics_list))
        else Fin 0)) /\
  (forall (m : DepletionMetrics) (a mu sd : R),
     depletion_efficiency m = Fin a ->
     np_mean (map depletion_efficiency metrics_list) = Fin mu ->
     np_std 0 (map depletion_efficiency metrics_list) = Fin sd ->
     (0 < sd)%R ->
     depletion_z metrics_list m = Fin ((a - mu) / sd)) /\
  (forall (m : DepletionMetrics) (a mu sd : R),
     coverage_uniformity m = Fin a ->
     np_mean (map coverage_uniformity metrics_list) = Fin mu ->
     np_std 0 (map coverage_uniformity metrics_list) = Fin sd ->
     (0 < sd)%R ->
     uniformity_z metrics_list m = Fin ((a - mu) / sd)) /\
  (forall m, np_std 0 (map depletion_efficiency metrics_list) = Fin 0 ->
     depletion_z metrics_list m = Fin 0) /\
  (forall m, np_std 0 (map coverage_uniformity metrics_list) = Fin 0 ->
     uniformity_z metrics_list m = Fin 0) /\
  fst (identify_outliers metrics_list n_std) =
    map grna_name
      (List.filter (fun m => fgt (depletion_z metrics_list m) n_std
                        && fgt (uniformity_z metrics_list m) n_std) metrics_list) /\
  snd (identify_outliers metrics_list n_std) =
    map grna_name
      (List.filter (fun m => flt (depletion_z metrics_list m) (fneg n_std)
                        || flt (uniformity_z metrics_list m) (fneg n_std)) metrics_list) /\
  (forall m,
     (is_high_performer metrics_list n_std m = true <->
      fgt (depletion_z metrics_list m) n_std = true /\
      fgt (uniformity_z metrics_list m) n_std = true) /\
     (is_low_performer metrics_list n_std m = true <->
      flt (depletion_z metrics_list m) (fneg n_std) = true \/
      flt (uniformity_z metrics_list m) (fneg n_std) = true)) /\
  (fgt n_std (Fin 0) = true ->
   forall m, is_high_performer metrics_list n_std m = true ->
             is_low_performer metrics_list n_std m = false) /\
  (flt n_std (Fin 0) = false ->
   forall m,
     (np_std 0 (map depletion_efficiency metrics_list) = Fin 0 ->
      is_high_performer metrics_list n_std m = false /\
      flt (depletion_z metrics_list m) (fneg n_std) = false) /\
     (np_std 0 (map coverage_uniformity metrics_list) = Fin 0 ->
      is_high_performer metrics_list n_std m = false /\
      flt (uniformity_z metrics_list m) (fneg n_std) = false)).
Proof.
  split; [intros xs Hne Hxs; now apply population_moments|].
  split; [intros xs Hne Hxs; now apply population_moments|].
  split; [intros m; split; reflexivity|].
  split.
  { intros m a mu sd Ha Hmu Hsd Hpos. unfold depletion_z.
    rewrite Ha, Hmu, Hsd. now apply z_score_positive_std. }
  split.
  { intros m a mu sd Ha Hmu Hsd Hpos. unfold uniformity_z.
    rewrite Ha, Hmu, Hsd. now apply z_score_positive_std. }
  split; [intros m Hs; unfold depletion_z; rewrite Hs; apply z_score_zero_std|].
  split; [intros m Hs; unfold uniformity_z; rewrite Hs; apply z_score_zero_std|].
  split; [reflexivity|]. split; [reflexivity|].
  split.
  { intros m. unfold is_high_performer, is_low_performer.
    split; [apply andb_true_iff|apply orb_true_iff]. }
  split.
  - intros Hpos m Hhigh. unfold is_high_performer in Hhigh.
    apply andb_true_iff in Hhigh as [Hd Hu].
    unfold is_low_performer. apply orb_false_iff. split.
    + apply not_true_is_false. intros Hlow.
      exact (above_and_below_exclusive _ _ Hpos Hd Hlow).
    + apply not_true_is_false. intros Hlow.
      exact (above_and_below_exclusive _ _ Hpos Hu Hlow).
  - intros Hn m. destruct (zero_not_above n_std Hn) as [Ha Hb]. split.
    + intros Hs. unfold is_high_performer, depletion_z. rewrite Hs, z_score_zero_std.
      rewrite Ha, Hb. split; reflexivity.
    + intros Hs. unfold is_high_performer, uniformity_z. rewrite Hs, z_score_zero_std.
      rewrite Ha, Hb. split; [apply andb_false_r|reflexivity].
Qed.

Lemma identify_outliers_correct_witness :
  fgt (Fin (1 / 2)) (Fin 0) = true /\
  depletion_z [weak_target; strong_target] strong_target = Fin ((1 - 1 / 2) / (1 / 2)) /\
  uniformity_z [weak_target; strong_target] strong_target = Fin ((1 - 1 / 2) / (1 / 2)) /\
  is_high_performer [weak_target; strong_target] (Fin (1 / 2)) strong_target = true /\
  is_low_performer [weak_target; strong_target] (Fin (1 / 2)) strong_target = false /\
  identify_outliers [weak_target; strong_target] (Fin (1 / 2)) =
    (["gRNA_strong"%string], ["gRNA_weak"%string]).
Proof.
  destruct (identify_outliers_correct [weak_target; strong_target] (Fin (1 / 2)))
    as (Hd & Hu & _ & Hdz & Huz & _ & _ & Hfst & Hsnd & Hiff & Hexcl & _).
  assert (Hne : [0; 1]%R <> []) by discriminate.
  destruct (Hd [0; 1]%R Hne eq_refl) as [Hdm Hds].
  destruct (Hu [0; 1]%R Hne eq_refl) as [Hum Hus].
  rewrite mean_R_zero_one in Hdm, Hum. rewrite pstd_R_zero_one in Hds, Hus.
  assert (Hhalf : (0 < 1 / 2)%R) by lra.
  pose proof (Hdz strong_target 1%R _ _ eq_refl Hdm Hds Hhalf) as Hz1.
  pose proof (Huz strong_target 1%R _ _ eq_refl Hum Hus Hhalf) as Hz2.
  pose proof (Hdz weak_target 0%R _ _ eq_refl Hdm Hds Hhalf) as Hz3.
  pose proof (Huz weak_target 0%R _ _ eq_refl Hum Hus Hhalf) as Hz4.
  assert (Hpos : fgt (Fin (1 / 2)) (Fin 0) = true).
  { unfold fgt, flt. apply Rltb_true. lra. }
  assert (Hhigh : is_high_performer [weak_target; strong_target] (Fin (1 / 2))
                    strong_target = true).
  { apply (proj1 (Hiff strong_target)). rewrite Hz1, Hz2.
    unfold fgt, flt. split; apply Rltb_true; lra. }
  split; [exact Hpos|]. split; [exact Hz1|]. split; [exact Hz2|].
  split; [exact Hhigh|]. split; [exact (Hexcl Hpos strong_target Hhigh)|].
  rewrite (surjective_pairing (identify_outliers _ _)), Hfst, Hsnd.
  cbn [List.filter]. rewrite Hz1, Hz2, Hz3, Hz4.
  unfold fgt, flt, fneg. rdecide. reflexivity.
Defined.

(** With a negative threshold a target whose two metrics both have zero
    deviation is reported as a high and as a low performer: the z-scores are
    0, and 0 lies above [n_std] and below [-n_std].  C8 as stated, for every
    [n_std], fails there. *)
Lemma zero_std_flags_for_negative_threshold :
  let m0 := mkMetrics "g1" ("chr1"%string, 0, 4) (Fin 3) (Fin 3)
                      (Fin (1 / 2)) (Fin (1 / 2)) (Fin 0) (Fin 0) in
  np_std 0 (map depletion_efficiency [m0]) = Fin 0 /\
  np_std 0 (map coverage_uniformity [m0]) = Fin 0 /\
  identify_outliers [m0] (Fin (-1)) = (["g1"%string], ["g1"%string]).
Proof.
  intros m0. split; [apply np_std_singleton|]. split; [apply np_std_singleton|].
  unfold identify_outliers. cbn [List.filter].
  assert (Hh : is_high_performer [m0] (Fin (-1)) m0 = true).
  { unfold is_high_performer, depletion_z, uniformity_z. cbn [map depletion_efficiency
      coverage_uniformity m0]. rewrite np_std_singleton, !z_score_zero_std.
    unfold fgt, flt. now rdecide. }
  assert (Hl : is_low_performer [m0] (Fin (-1)) m0 = true).
  { unfold is_low_performer, depletion_z, uniformity_z. cbn [map depletion_efficiency
      coverage_uniformity m0]. rewrite np_std_singleton, !z_score_zero_std.
    unfold fneg, flt. now rdecide. }
  rewrite Hh, Hl. reflexivity.
Qed.

(** ** Group comparison under exchange of the groups *)

Lemma inf_of_sign_opp (x : R) : inf_of_sign (- x) = fneg (inf_of_sign x).
Proof.
  unfold inf_of_sign, Rltb.
  destruct (Rlt_dec 0 (- x)), (Rlt_dec (- x) 0), (Rlt_dec 0 x), (Rlt_dec x 0);
    try reflexivity; lra.
Qed.

Lemma fadd_comm (a b : fval) : fadd a b = fadd b a.
Proof.
  destruct a, b; simpl; try reflexivity. f_equal. lra.
Qed.

Lemma fsub_swap (a b : fval) : fsub b a = fneg (fsub a b).
Proof.
  unfold fsub. destruct a, b; simpl; try reflexivity. f_equal. lra.
Qed.

Lemma fdiv_fneg_l (a b : fval) : fdiv (fneg a) b = fneg (fdiv a b).
Proof.
  destruct a as [x| | |], b as [y| | |]; simpl; try reflexivity.
  - destruct (Reqb y 0).
    + apply inf_of_sign_opp.
    + simpl. f_equal. unfold Rdiv. lra.
  - f_equal. lra.
  - f_equal. lra.
  - destruct (Rltb y 0); reflexivity.
  - destruct (Rltb y 0); reflexivity.
Qed.

Lemma fabs_fneg (a : fval) : fabs (fneg a) = fabs a.
Proof.
  destruct a; simpl; try reflexivity. f_equal. apply Rabs_Ropp.
Qed.

Lemma fneg_zero : fneg (Fin 0) = Fin 0.
Proof. simpl. f_equal. lra. Qed.

Lemma cohens_d_swap (g1 g2 : list fval) :
  calculate_cohens_d g2 g1 = fneg (calculate_cohens_d g1 g2).
Proof.
  unfold calculate_cohens_d.
  rewrite (fadd_comm (fmul (of_int (Z.of_nat (length g2) - 1)) (np_var 1 g2))).
  rewrite (Z.add_comm (Z.of_nat (length g2))).
  destruct (feq _ (Fin 0)).
  - now rewrite fneg_zero.
  - rewrite <- fdiv_fneg_l, <- fsub_swap. reflexivity.
Qed.

Lemma ttest_ind_swap (two_sided_p : Z -> fval -> fval) (a b : list fval) :
  ttest_ind two_sided_p b a =
  (fneg (fst (ttest_ind two_sided_p a b)), snd (ttest_ind two_sided_p a b)).
Proof.
  unfold ttest_ind. cbn [fst snd].
  rewrite (fadd_comm (fmul (of_int (Z.of_nat (length b) - 1)) (np_var 1 b))).
  rewrite (Z.add_comm (Z.of_nat (length b))).
  rewrite (fadd_comm (fdiv (Fin 1) (of_int (Z.of_nat (length b))))).
  rewrite (fsub_swap (np_mean a) (np_mean b)), fdiv_fneg_l, fabs_fneg.
  reflexivity.
Qed.

Lemma compare_metric_swap (two_sided_p : Z -> fval -> fval)
    (g1 g2 : list DepletionMetrics) (alpha : fval)
    (m : (DepletionMetrics -> fval) * string) :
  compare_metric two_sided_p g2 g1 alpha m =
  swapped (compare_metric two_sided_p g1 g2 alpha m).
Proof.
  unfold compare_metric, swapped. cbn [metric_name group1_mean group2_mean
    group1_std group2_std t_statistic p_value significant effect_size].
  rewrite ttest_ind_swap, cohens_d_swap. reflexivity.
Qed.

(** C9: exchanging the two groups negates the t-statistic and Cohen's d of
    every per-metric result, exchanges the reported means and standard
    deviations, and leaves |t|, the p-value and the significance flag as they
    were; the results stay in the same metric order. *)
Theorem compare_groups_swap (two_sided_p : Z -> fval -> fval)
    (group1 group2 : list DepletionMetrics) (alpha : fval) :
  compare_groups two_sided_p group2 group1 alpha =
    map swapped (compare_groups two_sided_p group1 group2 alpha) /\
  Forall2
    (fun r r' =>
       t_statistic r' = fneg (t_statistic r) /\
       effect_size r' = fneg (effect_size r) /\
       fabs (t_statistic r') = fabs (t_statistic r) /\
       p_value r' = p_value r /\
       significant r' = significant r /\
       group1_mean r' = group2_mean r /\ group2_mean r' = group1_mean r /\
       group1_std r' = group2_std r /\ group2_std r' = group1_std r /\
       metric_name r' = metric_name r)
    (compare_groups two_sided_p group1 group2 alpha)
    (compare_groups two_sided_p group2 group1 alpha).
Proof.
  assert (Hswap : compare_groups two_sided_p group2 group1 alpha =
                  map swapped (compare_groups two_sided_p group1 group2 alpha)).
  { unfold compare_groups. rewrite map_map. apply map_ext.
    intros m. apply compare_metric_swap. }
  split; [exact Hswap|]. rewrite Hswap. clear Hswap.
  induction (compare_groups two_sided_p group1 group2 alpha) as [|r rs IH];
    simpl; [constructor|constructor; [|exact IH]].
  repeat split; try reflexivity. cbn [swapped t_statistic]. apply fabs_fneg.
Qed.

(** ** Empty and degenerate collections *)











(** With a t-test that always returns the pooled-variance statistic, the two
    renderings of [compare_groups] agree. *)
Lemma compare_groups_library_returns (two_sided_p : Z -> fval -> fval)
    (g1 g2 : list DepletionMetrics) (alpha : fval) :
  LibraryCalls.compare_groups (fun a b => Ok (ttest_ind two_sided_p a b)) g1 g2 alpha =
  Ok (Statistics.compare_groups two_sided_p g1 g2 alpha).
Proof.
  unfold LibraryCalls.compare_groups, Statistics.compare_groups.
  induction metrics_to_compare as [|m ms IH]; [reflexivity|].
  cbn [LibraryCalls.compare_loop map]. rewrite IH. reflexivity.
Qed.




(** ** Ranking *)

Lemma weight_default_depletion : weight default_weights "depletion" = Ok (Fin (4 / 10)).
Proof. reflexivity. Qed.

Lemma weight_default_uniformity : weight default_weights "uniformity" = Ok (Fin (3 / 10)).
Proof. reflexivity. Qed.

Lemma weight_default_zero_coverage :
  weight default_weights "zero_coverage" = Ok (Fin (2 / 10)).
Proof. reflexivity. Qed.

Lemma weight_default_cv : weight default_weights "cv" = Ok (Fin (1 / 10)).
Proof. reflexivity. Qed.

(** The row scored under the default weights, for finite metrics. *)
Lemma score_metrics_default (m : DepletionMetrics) (d u z c : R) :
  depletion_efficiency m = Fin d -> coverage_uniformity m = Fin u ->
  zero_coverage_fraction m = Fin z -> coefficient_of_variation m = Fin c ->
  (1 + c <> 0)%R ->
  score_metrics default_weights m =
  Ok {| gRNA_name := grna_name m;
        composite_score :=
          Fin (4 / 10 * d + 3 / 10 * u + 2 / 10 * z + 1 / 10 * (1 / (1 + c)));
        row_depletion_efficiency := Fin d;
        row_coverage_uniformity := Fin u;
        row_zero_coverage_fraction := Fin z;
        row_coefficient_of_variation := Fin c |}.
Proof.
  intros Hd Hu Hz Hc Hne. unfold score_metrics.
  rewrite Hd, Hu, Hz, Hc. cbn [fadd]. unfold py_div. cbn [feq].
  rewrite Reqb_false by assumption. cbn [bind fdiv]. rewrite Reqb_false by assumption.
  rewrite weight_default_depletion, weight_default_uniformity,
    weight_default_zero_coverage, weight_default_cv. cbn [bind].
  reflexivity.
Qed.

Lemma score_all_single :
  score_all default_weights [tied_a] = Ok [tied_row "gRNA_a"].
Proof.
  cbn [score_all].
  rewrite (score_metrics_default tied_a 1 1 1 0) by (try reflexivity; lra).
  reflexivity.
Qed.

(** C4 (the code at the empty list): with no records the list of score
    entries is empty, [pd.DataFrame(scores)] is a frame without columns, and
    sorting it by ['composite_score'] raises [KeyError]: whatever the weights,
    [rank_grnas] gives no ranking, not even the empty one.  A list of one
    record is ranked: the record's row comes back with rank 1. *)
Theorem rank_grnas_empty_raises (weights : option (gmap string fval)) :
  rank_grnas [] weights (Raise KeyError) /\
  (forall res, rank_grnas [] weights res -> res = Raise KeyError) /\
  (forall res, rank_grnas [tied_a] None res <-> res = Ok [(1, tied_row "gRNA_a")]).
Proof.
  split; [now apply rank_empty_frame|]. split.
  - intros res H. inversion H as [e He|He|scores sorted He Hne Hsort].
    + discriminate.
    + reflexivity.
    + cbn [score_all] in He. injection He as <-. contradiction.
  - intros res. split.
    + intros H. inversion H as [e He|He|scores sorted He Hne Hsort].
      * cbn [default] in He. rewrite score_all_single in He. discriminate.
      * cbn [default] in He. rewrite score_all_single in He. discriminate.
      * cbn [default] in He. rewrite score_all_single in He. injection He as <-.
        destruct Hsort as [Hperm _].
        apply Permutation.Permutation_length_1_inv in Hperm. subst sorted.
        reflexivity.
    + intros ->.
      apply (rank_sorted [tied_a] None [tied_row "gRNA_a"] [tied_row "gRNA_a"]).
      * exact score_all_single.
      * discriminate.
      * split; [apply Permutation.Permutation_refl|].
        unfold sorted_desc. repeat constructor.
Qed.

Lemma rank_grnas_empty_raises_witness :
  rank_grnas [] None (Raise KeyError) /\
  @Raise (list (Z * score_row)) KeyError = Raise KeyError.
Proof.
  pose proof (proj1 (rank_grnas_empty_raises None)) as H.
  split; [exact H|].
  exact (proj1 (proj2 (rank_grnas_empty_raises None)) _ H).
Defined.

(** * Further properties of the code *)

(** ** The overlap scan on arbitrary lists *)

(** X1: whatever the order of the annotation list, a true answer of
    [check_overlap] is backed by an annotation that overlaps the read; on an
    unsorted list the scan can only miss overlaps, never invent one. *)
Theorem check_overlap_sound (rs re : Z) (anns : list annotation)
    (Htrue : check_overlap rs re anns = true) :
  exists a, In a anns /\ rs < ann_end a /\ re > ann_start a.
Proof.
  induction anns as [|a rest IH]; [discriminate|].
  simpl in Htrue. destruct (ann_start a >? re); [discriminate|].
  destruct (overlaps rs re a) eqn:Ha.
  - exists a. split; [now left|]. now apply overlaps_spec.
  - destruct (IH Htrue) as [b [Hin Hb]]. exists b. split; [now right|exact Hb].
Qed.

Lemma check_overlap_sound_witness :
  check_overlap 310 320 [(300, 400, None); (100, 200, None)] = true /\
  exists a, In a [(300, 400, None); (100, 200, None)] /\
            310 < ann_end a /\ 320 > ann_start a.
Proof.
  split; [reflexivity|].
  exact (check_overlap_sound 310 320 [(300, 400, None); (100, 200, None)] eq_refl).
Defined.

(** ** The counters of the read loop *)

Lemma fold_process_read (annotations : gmap string (list annotation))
    (min_mapq : Z) (require_proper_pair : bool) (reads : list read) (st : counters) :
  fold_left (process_read annotations min_mapq require_proper_pair) reads st =
  (fst st + Z.of_nat (length (List.filter
                                (passes_filters min_mapq require_proper_pair) reads)),
   snd st + Z.of_nat (length (List.filter
                                (fun r => passes_filters min_mapq require_proper_pair r
                                          && read_overlaps annotations r) reads))).
Proof.
  revert st. induction reads as [|r reads IH]; intros [t o].
  - simpl. f_equal; lia.
  - cbn [fold_left List.filter]. rewrite IH. unfold process_read.
    destruct (passes_filters min_mapq require_proper_pair r);
      [destruct (read_overlaps annotations r)|];
      cbn [andb fst snd length]; f_equal; lia.
Qed.

Lemma overlap_counts_filter
    (reads : list read) (annotations : gmap string (list annotation))
    (min_mapq : Z) (require_proper_pair : bool) :
  calculate_overlap_percentage reads annotations min_mapq require_proper_pair =
  Ok
  (Z.of_nat (length (List.filter (passes_filters min_mapq require_proper_pair) reads)),
   Z.of_nat (length (List.filter
                       (fun r => passes_filters min_mapq require_proper_pair r
                                 && read_overlaps annotations r) reads)),
   if Z.of_nat (length (List.filter (passes_filters min_mapq require_proper_pair) reads))
      >? 0
   then (IZR (Z.of_nat (length (List.filter
                                  (fun r => passes_filters min_mapq require_proper_pair r
                                            && read_overlaps annotations r) reads)))
         / IZR (Z.of_nat (length (List.filter
                                    (passes_filters min_mapq require_proper_pair) reads)))
         * 100)%R
   else 0%R).
Proof.
  unfold calculate_overlap_percentage, count_reads, percentage_of.
  rewrite fold_process_read. cbn [fst snd]. rewrite !Z.add_0_l.
  destruct (Z.of_nat (length (List.filter
                                (passes_filters min_mapq require_proper_pair) reads))
            >? 0) eqn:Hpos; [|reflexivity].
  apply Z.gtb_gt in Hpos. unfold int_truediv.
  rewrite (proj2 (Z.eqb_neq _ 0)) by lia. reflexivity.
Qed.

Lemma read_overlaps_sorted (annotations : gmap string (list annotation)) (r : read) :
  (forall chrom anns, annotations !! chrom = Some anns -> sorted_by_start anns) ->
  read_overlaps annotations r = has_overlap annotations r.
Proof.
  intros Hsorted. unfold read_overlaps, has_overlap.
  destruct (annotations !! reference_name r) as [anns|] eqn:Hl; [|reflexivity].
  apply check_overlap_any. exact (Hsorted _ _ Hl).
Qed.

(** X2: on an index whose chromosome lists are sorted by start,
    [total_reads] is the number of reads that pass the three filters,
    [overlapping_reads] the number of those that some annotation of their
    chromosome overlaps ([read_start < ann_end] and [read_end > ann_start]),
    and the percentage is their ratio times 100 when [total_reads] is
    positive. *)
Theorem overlap_counts_closed_form
    (reads : list read) (annotations : gmap string (list annotation))
    (min_mapq : Z) (require_proper_pair : bool)
    (Hsorted : forall chrom anns,
        annotations !! chrom = Some anns -> sorted_by_start anns) :
  let total :=
    Z.of_nat (length (List.filter (passes_filters min_mapq require_proper_pair) reads)) in
  let overlapping :=
    Z.of_nat (length (List.filter
                        (fun r => passes_filters min_mapq require_proper_pair r
                                  && has_overlap annotations r) reads)) in
  calculate_overlap_percentage reads annotations min_mapq require_proper_pair =
  Ok (total, overlapping,
      if total >? 0 then (IZR overlapping / IZR total * 100)%R else 0%R) /\
  forall r, has_overlap annotations r = true <->
            exists anns a, annotations !! reference_name r = Some anns /\ In a anns /\
                           reference_start r < ann_end a /\
                           reference_end r > ann_start a.
Proof.
  cbv zeta. split.
  - rewrite overlap_counts_filter.
    rewrite (List.filter_ext
               (fun r => passes_filters min_mapq require_proper_pair r
                         && read_overlaps annotations r)
               (fun r => passes_filters min_mapq require_proper_pair r
                         && has_overlap annotations r)).
    + reflexivity.
    + intros r. now rewrite read_overlaps_sorted.
  - intros r. unfold has_overlap.
    destruct (annotations !! reference_name r) as [anns|].
    + rewrite any_overlap_spec. split.
      * intros [a Ha]. now exists anns, a.
      * intros [anns' [a [[= <-] Ha]]]. now exists a.
    + split; [discriminate|]. intros [anns [a [Hl _]]]. discriminate.
Qed.

Lemma overlap_counts_closed_form_witness :
  (forall chrom anns,
      ({["chr1"%string := [(100, 200, None); (500, 600, None)]]}
         : gmap string (list annotation)) !! chrom = Some anns ->
      sorted_by_start anns) /\
  calculate_overlap_percentage [mkRead false false false 60 true "chr1" 150 160; read_chr2]
    {["chr1"%string := [(100, 200, None); (500, 600, None)]]} 0 false =
  Ok (2, 1, (1 / 2 * 100)%R).
Proof.
  assert (H : forall chrom anns,
             ({["chr1"%string := [(100, 200, None); (500, 600, None)]]}
                : gmap string (list annotation)) !! chrom = Some anns ->
             sorted_by_start anns).
  { intros chrom anns Hl. apply lookup_singleton_Some in Hl as [_ <-].
    unfold sorted_by_start, ann_start. repeat constructor; simpl; lia. }
  split; [exact H|].
  exact (proj1 (overlap_counts_closed_form
                  [mkRead false false false 60 true "chr1" 150 160; read_chr2]
                  _ 0 false H)).
Defined.

Lemma filter_length_le {A : Type} (f g : A -> bool) (l : list A) :
  (forall x, g x = true -> f x = true) ->
  (length (List.filter g l) <= length (List.filter f l))%nat.
Proof.
  intros Himp. induction l as [|x l IH]; [reflexivity|].
  simpl. destruct (g x) eqn:Hg.
  - rewrite (Himp x Hg). simpl. lia.
  - destruct (f x); simpl; lia.
Qed.

(** X3: for every input, [0 <= overlapping_reads <= total_reads <= number of
    reads fetched], and the percentage lies between 0 and 100. *)
Theorem overlap_counts_bounds
    (reads : list read) (annotations : gmap string (list annotation))
    (min_mapq : Z) (require_proper_pair : bool) :
  exists res,
    calculate_overlap_percentage reads annotations min_mapq require_proper_pair
      = Ok res /\
    0 <= snd (fst res) <= fst (fst res) /\
    fst (fst res) <= Z.of_nat (length reads) /\
    (0 <= snd res <= 100)%R.
Proof.
  rewrite overlap_counts_filter. eexists. split; [reflexivity|]. cbn [fst snd].
  set (f := passes_filters min_mapq require_proper_pair).
  set (g := fun r => f r && read_overlaps annotations r).
  assert (Hgf : (length (List.filter g reads) <= length (List.filter f reads))%nat).
  { apply filter_length_le. intros x Hx. unfold g in Hx.
    now apply andb_true_iff in Hx as [Hx _]. }
  assert (Hf : (length (List.filter f reads) <= length reads)%nat)
    by apply List.filter_length_le.
  split; [lia|]. split; [lia|].
  destruct (Z.of_nat (length (List.filter f reads)) >? 0) eqn:Hpos; [|lra].
  apply Z.gtb_gt in Hpos.
  assert (Ht : (0 < IZR (Z.of_nat (length (List.filter f reads))))%R)
    by (apply IZR_lt; lia).
  assert (Ho : (0 <= IZR (Z.of_nat (length (List.filter g reads))))%R)
    by (apply IZR_le; lia).
  assert (Hle : (IZR (Z.of_nat (length (List.filter g reads)))
                 <= IZR (Z.of_nat (length (List.filter f reads))))%R)
    by (apply IZR_le; lia).
  set (o := IZR (Z.of_nat (length (List.filter g reads)))) in *.
  set (t := IZR (Z.of_nat (length (List.filter f reads)))) in *.
  assert (Hq : (0 <= o / t <= 1)%R).
  { split.
    - apply Rmult_le_pos; [exact Ho|]. left. now apply Rinv_0_lt_compat.
    - apply (Rmult_le_reg_r t); [exact Ht|]. unfold Rdiv.
      rewrite Rmult_assoc, Rinv_l by lra. lra. }
  lra.
Qed.

Lemma filter_length_perm {A : Type} (f : A -> bool) (l l' : list A) :
  Permutation l l' -> length (List.filter f l) = length (List.filter f l').
Proof.
  induction 1 as [|x l l' _ IH|x y l|l l' l'' _ IH1 _ IH2]; simpl.
  - reflexivity.
  - destruct (f x); simpl; congruence.
  - destruct (f x), (f y); reflexivity.
  - congruence.
Qed.

(** X4: the result does not depend on the order in which the alignment file
    yields its reads. *)
Theorem overlap_result_order_independent
    (reads reads' : list read) (annotations : gmap string (list annotation))
    (min_mapq : Z) (require_proper_pair : bool)
    (Hperm : Permutation reads reads') :
  calculate_overlap_percentage reads annotations min_mapq require_proper_pair =
  calculate_overlap_percentage reads' annotations min_mapq require_proper_pair.
Proof.
  rewrite !overlap_counts_filter.
  rewrite (filter_length_perm _ reads reads' Hperm).
  rewrite (filter_length_perm (fun r => passes_filters min_mapq require_proper_pair r
                                        && read_overlaps annotations r)
             reads reads' Hperm).
  reflexivity.
Qed.

Lemma overlap_result_order_independent_witness :
  Permutation [read_chr2; read_low_mapq] [read_low_mapq; read_chr2] /\
  calculate_overlap_percentage [read_chr2; read_low_mapq]
    {["chr1"%string := [(100, 200, None)]]} 0 false =
  calculate_overlap_percentage [read_low_mapq; read_chr2]
    {["chr1"%string := [(100, 200, None)]]} 0 false.
Proof.
  assert (H : Permutation [read_chr2; read_low_mapq] [read_low_mapq; read_chr2])
    by apply Permutation.perm_swap.
  split; [exact H|].
  exact (overlap_result_order_independent _ _ _ 0 false H).
Defined.

(** X5: an unmapped, secondary or supplementary read is never counted,
    whatever [min_mapq] and [require_proper_pair] are: the result is the same
    with and without it. *)
Theorem excluded_read_never_counted
    (before after : list read) (r : read)
    (annotations : gmap string (list annotation))
    (min_mapq : Z) (require_proper_pair : bool)
    (Hflag : is_unmapped r || is_secondary r || is_supplementary r = true) :
  calculate_overlap_percentage (before ++ r :: after) annotations min_mapq
    require_proper_pair =
  calculate_overlap_percentage (before ++ after) annotations min_mapq
    require_proper_pair.
Proof.
  assert (Hdrop : passes_filters min_mapq require_proper_pair r = false).
  { unfold passes_filters. now rewrite Hflag. }
  rewrite !overlap_counts_filter.
  rewrite !List.filter_app. cbn [List.filter]. rewrite Hdrop. reflexivity.
Qed.

Lemma excluded_read_never_counted_witness :
  is_unmapped read_unmapped || is_secondary read_unmapped
    || is_supplementary read_unmapped = true /\
  calculate_overlap_percentage ([read_chr2] ++ read_unmapped :: [read_low_mapq])
    ∅ 0 false =
  calculate_overlap_percentage ([read_chr2] ++ [read_low_mapq]) ∅ 0 false.
Proof.
  split; [reflexivity|].
  exact (excluded_read_never_counted [read_chr2] [read_low_mapq] read_unmapped
           ∅ 0 false eq_refl).
Defined.

(** ** Coverage arrays *)

Lemma coverage_fold_length (s e : Z) (columns : list (Z * Z)) (coverage : list Z) :
  length (fold_left
            (fun coverage col =>
               if (s <=? fst col) && (fst col <? e)
               then <[Z.to_nat (fst col - s) := snd col]> coverage
               else coverage) columns coverage) = length coverage.
Proof.
  revert coverage. induction columns as [|col columns IH]; intros coverage.
  - reflexivity.
  - cbn [fold_left]. rewrite IH.
    destruct ((s <=? fst col) && (fst col <? e)); [apply length_insert|reflexivity].
Qed.

Lemma coverage_fold_cell (s e : Z) (columns : list (Z * Z)) (coverage : list Z) (p : Z) :
  s <= p < e -> Z.of_nat (length coverage) = e - s ->
  fold_left
    (fun coverage col =>
       if (s <=? fst col) && (fst col <? e)
       then <[Z.to_nat (fst col - s) := snd col]> coverage
       else coverage) columns coverage !! Z.to_nat (p - s) =
  Some (fold_left (fun depth col => if fst col =? p then snd col else depth) columns
          (nth (Z.to_nat (p - s)) coverage 0)).
Proof.
  intros Hp. revert coverage. induction columns as [|col columns IH]; intros coverage Hlen.
  - cbn [fold_left].
    destruct (lookup_lt_is_Some_2 coverage (Z.to_nat (p - s))) as [x Hx]; [lia|].
    rewrite nth_lookup, Hx. reflexivity.
  - cbn [fold_left]. destruct ((s <=? fst col) && (fst col <? e)) eqn:Hin.
    + apply andb_true_iff in Hin as [Hlo Hhi].
      apply Z.leb_le in Hlo. apply Z.ltb_lt in Hhi.
      rewrite IH by (rewrite length_insert; exact Hlen). f_equal. f_equal.
      destruct (fst col =? p) eqn:Heq.
      * apply Z.eqb_eq in Heq. rewrite Heq.
        rewrite nth_lookup, list_lookup_insert_eq by lia. reflexivity.
      * apply Z.eqb_neq in Heq.
        rewrite !nth_lookup, list_lookup_insert_ne by lia. reflexivity.
    + rewrite IH by exact Hlen. f_equal. f_equal.
      destruct (fst col =? p) eqn:Heq; [|reflexivity].
      apply Z.eqb_eq in Heq. apply andb_false_iff in Hin as [Hin|Hin].
      * apply Z.leb_gt in Hin. lia.
      * apply Z.ltb_ge in Hin. lia.
Qed.

(** X6: [get_coverage] raises [ValueError] exactly when [end < start];
    otherwise it returns an array of exactly [end - start] cells, whatever the
    pileup yields. *)
Theorem get_coverage_shape (src : pileup_source) (c : string) (s e : Z) :
  (e < s -> get_coverage src c s e = Raise ValueError) /\
  (s <= e -> exists coverage,
     get_coverage src c s e = Ok coverage /\ Z.of_nat (length coverage) = e - s).
Proof.
  unfold get_coverage. split; intros H.
  - now rewrite (proj2 (Z.ltb_lt (e - s) 0)) by lia.
  - rewrite (proj2 (Z.ltb_ge (e - s) 0)) by lia. eexists. split; [reflexivity|].
    rewrite coverage_fold_length, length_replicate. lia.
Qed.

Lemma get_coverage_shape_witness :
  100 <= 104 /\
  exists coverage,
    get_coverage (fun _ _ _ => [(101, 7); (250, 3)]) "chr1" 100 104 = Ok coverage /\
    Z.of_nat (length coverage) = 104 - 100.
Proof.
  assert (H : 100 <= 104) by lia.
  split; [exact H|].
  exact (proj2 (get_coverage_shape (fun _ _ _ => [(101, 7); (250, 3)]) "chr1" 100 104) H).
Defined.

(** X7: the cell of a position inside the region holds the depth of the last
    pileup column that names this position, and 0 when no column does;
    columns outside the region change nothing. *)
Theorem get_coverage_cell (src : pileup_source) (c : string) (s e p : Z)
    (coverage : list Z)
    (Hcov : get_coverage src c s e = Ok coverage) (Hp : s <= p < e) :
  coverage !! Z.to_nat (p - s) = Some (Batch.last_depth (src c s e) p).
Proof.
  unfold get_coverage in Hcov. rewrite (proj2 (Z.ltb_ge (e - s) 0)) in Hcov by lia.
  injection Hcov as <-. rewrite (coverage_fold_cell s e _ _ p Hp).
  - unfold Batch.last_depth. f_equal. f_equal.
    rewrite nth_lookup, lookup_replicate_2 by lia. reflexivity.
  - rewrite length_replicate. lia.
Qed.

Lemma get_coverage_cell_witness :
  get_coverage (fun _ _ _ => [(101, 7); (250, 3); (101, 9)]) "chr1" 100 104
    = Ok [0; 9; 0; 0] /\
  100 <= 101 < 104 /\
  ([0; 9; 0; 0] : list Z) !! Z.to_nat (101 - 100) =
    Some (Batch.last_depth [(101, 7); (250, 3); (101, 9)] 101).
Proof.
  assert (Hc : get_coverage (fun _ _ _ => [(101, 7); (250, 3); (101, 9)]) "chr1" 100 104
               = Ok [0; 9; 0; 0]) by reflexivity.
  assert (Hp : 100 <= 101 < 104) by lia.
  split; [exact Hc|]. split; [exact Hp|].
  exact (get_coverage_cell _ "chr1" 100 104 101 _ Hc Hp).
Defined.

Lemma get_coverage_nonneg (src : pileup_source) (c : string) (s e : Z)
    (coverage : list Z) :
  get_coverage src c s e = Ok coverage ->
  Forall (fun col => 0 <= snd col) (src c s e) ->
  Forall (fun d => 0 <= d) coverage.
Proof.
  unfold get_coverage. destruct (e - s <? 0); [discriminate|].
  intros Hcov Hcols. injection Hcov as <-.
  assert (Hinit : Forall (fun d => 0 <= d) (replicate (Z.to_nat (e - s)) 0)).
  { apply Forall_replicate. lia. }
  revert Hinit. generalize (replicate (Z.to_nat (e - s)) 0).
  induction Hcols as [|col cols Hcol _ IH]; intros acc Hacc; [exact Hacc|].
  cbn [fold_left]. apply IH.
  destruct ((s <=? fst col) && (fst col <? e)); [|exact Hacc].
  now apply Forall_insert.
Qed.

(** ** The median of a coverage array *)

Lemma insert_asc_Fin (x : R) (ys : list R) :
  exists ys', insert_asc (Fin x) (map Fin ys) = map Fin ys' /\ Permutation (x :: ys) ys'.
Proof.
  induction ys as [|y ys [ys' [Heq Hperm]]].
  - exists [x]. split; [reflexivity|apply Permutation.Permutation_refl].
  - cbn [map insert_asc flt]. destruct (Rltb y x).
    + exists (y :: ys'). rewrite Heq. split; [reflexivity|].
      eapply Permutation.perm_trans; [apply Permutation.perm_swap|].
      now apply Permutation.perm_skip.
    + exists (x :: y :: ys). split; [reflexivity|apply Permutation.Permutation_refl].
Qed.

Lemma sort_asc_Fin (xs : list R) :
  exists ys, sort_asc (map Fin xs) = map Fin ys /\ Permutation xs ys.
Proof.
  unfold sort_asc. induction xs as [|x xs [ys [Heq Hperm]]].
  - exists []. split; [reflexivity|constructor].
  - cbn [map fold_right]. rewrite Heq.
    destruct (insert_asc_Fin x ys) as [ys' [Heq' Hperm']].
    exists ys'. split; [exact Heq'|].
    eapply Permutation.perm_trans; [apply Permutation.perm_skip; exact Hperm|exact Hperm'].
Qed.

Lemma existsb_is_nan_Fin (xs : list R) : existsb is_nan (map Fin xs) = false.
Proof. induction xs as [|x xs IH]; [reflexivity|exact IH]. Qed.

Lemma nth_map_Fin (ys : list R) (i : nat) :
  (i < length ys)%nat -> nth i (map Fin ys) NaN = Fin (nth i ys 0%R).
Proof.
  intros Hi. rewrite (nth_indep _ NaN (Fin 0%R)) by now rewrite length_map.
  apply map_nth.
Qed.

(** The median of a non-empty array of finite values is one of its values or
    the mean of two of them. *)
Lemma np_median_Fin (xs : list R) :
  xs <> [] ->
  exists a b, In a xs /\ In b xs /\ np_median (map Fin xs) = Fin ((a + b) / 2).
Proof.
  intros Hne. unfold np_median. rewrite existsb_is_nan_Fin, length_map.
  destruct (sort_asc_Fin xs) as [ys [Hsort Hperm]]. rewrite Hsort.
  assert (Hlen : length ys = length xs)
    by (symmetry; now apply Permutation.Permutation_length).
  assert (Hpos : (0 < length xs)%nat) by (destruct xs; [contradiction|simpl; lia]).
  assert (Hhalf : (length xs / 2 < length xs)%nat) by (apply Nat.div_lt; lia).
  assert (Hin : forall i, (i < length xs)%nat -> In (nth i ys 0%R) xs).
  { intros i Hi. apply (Permutation.Permutation_in _ (Permutation.Permutation_sym Hperm)).
    apply nth_In. lia. }
  destruct (length xs) as [|k] eqn:Hn; [lia|]. rewrite <- Hn in *.
  destruct (Nat.even (length xs)).
  - rewrite !nth_map_Fin by lia. cbn [fadd fdiv]. rewrite Reqb_false by lra.
    exists (nth (length xs / 2 - 1) ys 0%R), (nth (length xs / 2) ys 0%R).
    split; [apply Hin; lia|]. split; [now apply Hin|reflexivity].
  - rewrite nth_map_Fin by lia.
    exists (nth (length xs / 2) ys 0%R), (nth (length xs / 2) ys 0%R).
    split; [now apply Hin|]. split; [now apply Hin|]. f_equal. lra.
Qed.

(** ** Ranges of the metrics of a non-empty target *)

Lemma uniformity_range (coverage : list Z) :
  coverage <> [] -> Forall (fun d => 0 <= d) coverage ->
  exists u, calculate_uniformity coverage = Fin u /\ (0 <= u <= 1)%R.
Proof.
  intros Hne Hnn.
  pose proof (mean_R_nonneg (reals coverage)) as Hm.
  rewrite reals_nil_iff in Hm. specialize (Hm Hne (reals_nonneg _ Hnn)).
  destruct (Req_dec_T (mean_R (reals coverage)) 0) as [Hz|Hnz].
  - exists 0%R. split; [|lra]. unfold calculate_uniformity.
    rewrite np_mean_coverage by assumption. rewrite Hz. cbn [feq].
    rewrite Reqb_true by reflexivity. now rewrite orb_true_r.
  - eexists. split; [apply uniformity_value; [assumption|lra]|].
    pose proof (pstd_R_nonneg (reals coverage)) as Hs.
    set (m := mean_R (reals coverage)) in *. set (s := pstd_R (reals coverage)) in *.
    assert (Hcv : (0 <= s / m)%R).
    { apply Rmult_le_pos; [assumption|]. left. apply Rinv_0_lt_compat. lra. }
    split.
    + left. apply Rdiv_lt_0_compat; lra.
    + unfold Rdiv. rewrite Rmult_1_l. apply Rle_trans with (/ 1)%R.
      * apply Rinv_le_contravar; lra.
      * rewrite Rinv_1. lra.
Qed.

Lemma count_zero_le (coverage : list Z) : (count_zero coverage <= length coverage)%nat.
Proof. unfold count_zero. apply List.filter_length_le. Qed.

Lemma zero_fraction_range (coverage : list Z) :
  coverage <> [] ->
  (0 <= INR (count_zero coverage) / INR (length coverage) <= 1)%R.
Proof.
  intros Hne. pose proof (INR_length_pos coverage Hne) as Hlen.
  pose proof (pos_INR (count_zero coverage)) as Hc.
  pose proof (le_INR _ _ (count_zero_le coverage)) as Hle.
  split.
  - apply Rmult_le_pos; [exact Hc|]. left. now apply Rinv_0_lt_compat.
  - apply (Rmult_le_reg_r (INR (length coverage))); [exact Hlen|].
    unfold Rdiv. rewrite Rmult_assoc, Rinv_l by lra. lra.
Qed.

Lemma clip_range (x : R) : (0 <= Rmax 0 (Rmin 1 x) <= 1)%R.
Proof.
  unfold Rmax, Rmin. destruct (Rle_dec 1 x); destruct (Rle_dec 0 1);
    try lra; destruct (Rle_dec 0 x); lra.
Qed.

Lemma depletion_range (treated : list Z) (control : option (list Z)) :
  treated <> [] -> (forall c, control = Some c -> c <> []) ->
  exists d, calculate_depletion_efficiency treated control = Fin d /\ (0 <= d <= 1)%R.
Proof.
  intros Ht Hc. destruct control as [c|].
  - rewrite depletion_with_control by (try assumption; now apply Hc).
    destruct (Reqb (mean_R (reals c)) 0).
    + exists 0%R. split; [reflexivity|lra].
    + eexists. split; [reflexivity|apply clip_range].
  - rewrite depletion_without_control by assumption.
    eexists. split; [reflexivity|now apply zero_fraction_range].
Qed.

Lemma get_coverage_nonempty (src : pileup_source) (c : string) (s e : Z) :
  s < e -> exists coverage, get_coverage src c s e = Ok coverage /\ coverage <> [].
Proof.
  intros Hlt. unfold get_coverage. rewrite (proj2 (Z.ltb_ge (e - s) 0)) by lia.
  eexists. split; [reflexivity|]. intros Hnil.
  apply (f_equal (@length Z)) in Hnil.
  rewrite coverage_fold_length, length_replicate in Hnil. simpl in Hnil. lia.
Qed.

(** X8: for a target of positive length whose treated pileup reports
    non-negative depths, [analyze_grna_target] returns a record of finite
    scalars: mean and median coverage and the coefficient of variation are
    non-negative, and depletion efficiency, coverage uniformity and the
    zero-coverage fraction lie in [0, 1]. *)
Theorem analyze_nonempty_target_ranges (self : DASHAnalyzer) (target : GRNATarget)
    (Hlen : start target < end_ target)
    (Hdepth : Forall (fun col => 0 <= snd col)
                (bam self (chrom target) (start target) (end_ target))) :
  exists (m : DepletionMetrics) (mean median d u z cv : R),
    analyze_grna_target self target = Ok m /\
    mean_coverage m = Fin mean /\ median_coverage m = Fin median /\
    depletion_efficiency m = Fin d /\ coverage_uniformity m = Fin u /\
    zero_coverage_fraction m = Fin z /\ coefficient_of_variation m = Fin cv /\
    (0 <= mean)%R /\ (0 <= median)%R /\ (0 <= d <= 1)%R /\ (0 <= u <= 1)%R /\
    (0 <= z <= 1)%R /\ (0 <= cv)%R.
Proof.
  destruct (get_coverage_nonempty (bam self) (chrom target) _ _ Hlen)
    as [cov [Hcov Hne]].
  pose proof (get_coverage_nonneg _ _ _ _ _ Hcov Hdepth) as Hnn.
  assert (Hctl : exists control,
            match control_bam self with
            | Some cb =>
                let! c := get_coverage cb (chrom target) (start target) (end_ target) in
                Ok (Some c)
            | None => Ok None
            end = Ok control /\ forall c, control = Some c -> c <> []).
  { destruct (control_bam self) as [cb|].
    - destruct (get_coverage_nonempty cb (chrom target) _ _ Hlen) as [c [Hc Hcne]].
      exists (Some c). rewrite Hc. split; [reflexivity|]. now intros c' [= <-].
    - exists None. split; [reflexivity|discriminate]. }
  destruct Hctl as [control [Hctl Hcne]].
  unfold analyze_grna_target. rewrite Hcov. cbn [bind]. rewrite Hctl. cbn [bind].
  destruct (uniformity_range cov Hne Hnn) as [u [Hu Hur]].
  destruct (depletion_range cov control Hne Hcne) as [d [Hd Hdr]].
  assert (Hrn : reals cov <> []) by now rewrite reals_nil_iff.
  destruct (np_median_Fin (reals cov) Hrn) as [a [b [Ha [Hb Hmed]]]].
  pose proof (reals_nonneg _ Hnn) as Hrnn. rewrite List.Forall_forall in Hrnn.
  pose proof (Hrnn a Ha) as Ha0. pose proof (Hrnn b Hb) as Hb0. cbv beta in Ha0, Hb0.
  pose proof (mean_R_nonneg (reals cov) Hrn (reals_nonneg _ Hnn)) as Hm.
  pose proof (pstd_R_nonneg (reals cov)) as Hs.
  assert (Hpos : (0 <? length cov)%nat = true).
  { apply Nat.ltb_lt. destruct cov; [contradiction|simpl; lia]. }
  rewrite Hpos, Hu, Hd, np_mean_coverage, np_std_coverage by assumption.
  rewrite as_float_reals, Hmed.
  assert (Hz : fdiv (of_nat (count_zero cov)) (of_nat (length cov)) =
               Fin (INR (count_zero cov) / INR (length cov))).
  { unfold of_nat, fdiv. rewrite Reqb_false; [reflexivity|].
    pose proof (INR_length_pos cov Hne). lra. }
  rewrite Hz. unfold fgt, flt.
  destruct (Rltb 0 (mean_R (reals cov))) eqn:Hgt.
  - apply Rltb_lt in Hgt. cbn [fdiv]. rewrite Reqb_false by lra.
    eexists _, _, _, _, _, _, _. split; [reflexivity|].
    cbn [mean_coverage median_coverage depletion_efficiency coverage_uniformity
         zero_coverage_fraction coefficient_of_variation].
    repeat (split; [reflexivity|]).
    split; [exact Hm|]. split; [lra|]. split; [exact Hdr|]. split; [exact Hur|].
    split; [now apply zero_fraction_range|].
    apply Rmult_le_pos; [exact Hs|]. left. now apply Rinv_0_lt_compat.
  - eexists _, _, _, _, _, _, _. split; [reflexivity|].
    cbn [mean_coverage median_coverage depletion_efficiency coverage_uniformity
         zero_coverage_fraction coefficient_of_variation].
    repeat (split; [reflexivity|]).
    split; [exact Hm|]. split; [lra|]. split; [exact Hdr|]. split; [exact Hur|].
    split; [now apply zero_fraction_range|lra].
Qed.

Lemma analyze_nonempty_target_ranges_witness :
  start (mkTarget "gRNA1" "chr1" 100 104) < end_ (mkTarget "gRNA1" "chr1" 100 104) /\
  exists m, analyze_grna_target (mkAnalyzer (fun _ _ _ => [(101, 7)]) None)
              (mkTarget "gRNA1" "chr1" 100 104) = Ok m.
Proof.
  assert (Hlen : start (mkTarget "gRNA1" "chr1" 100 104)
                 < end_ (mkTarget "gRNA1" "chr1" 100 104)) by (simpl; lia).
  split; [exact Hlen|].
  assert (Hd : Forall (fun col : Z * Z => 0 <= snd col) [(101, 7)])
    by (repeat constructor; simpl; lia).
  destruct (analyze_nonempty_target_ranges
              (mkAnalyzer (fun _ _ _ => [(101, 7)]) None)
              (mkTarget "gRNA1" "chr1" 100 104) Hlen Hd) as [m [? [? [? [? [? [? [Hm _]]]]]]]].
  exists m. exact Hm.
Defined.

(** ** Relations between the fields of one record *)

Lemma analyze_inversion (self : DASHAnalyzer) (target : GRNATarget)
    (m : DepletionMetrics) :
  analyze_grna_target self target = Ok m ->
  exists treated control,
    get_coverage (bam self) (chrom target) (start target) (end_ target) = Ok treated /\
    (control_bam self = None -> control = None) /\
    grna_name m = name target /\
    target_region m = (chrom target, start target, end_ target) /\
    mean_coverage m = np_mean (as_float treated) /\
    coverage_uniformity m = calculate_uniformity treated /\
    depletion_efficiency m = calculate_depletion_efficiency treated control /\
    zero_coverage_fraction m =
      (if (0 <? length treated)%nat
       then fdiv (of_nat (count_zero treated)) (of_nat (length treated))
       else Fin 0) /\
    coefficient_of_variation m =
      (if fgt (np_mean (as_float treated)) (Fin 0)
       then fdiv (np_std 0 (as_float treated)) (np_mean (as_float treated))
       else Fin 0).
Proof.
  unfold analyze_grna_target. intros H.
  destruct (get_coverage (bam self) _ _ _) as [treated|e]; [|discriminate].
  cbn [bind] in H.
  destruct (control_bam self) as [cb|].
  - destruct (get_coverage cb _ _ _) as [c|e]; [|discriminate]. cbn [bind] in H.
    injection H as <-. exists treated, (Some c).
    repeat split; try reflexivity. discriminate.
  - cbn [bind] in H. injection H as <-. exists treated, None.
    repeat split; reflexivity.
Qed.

(** X9: without a control file the depletion efficiency of a record is its
    zero-coverage fraction, for every target (both are 0 on an empty one). *)
Theorem efficiency_without_control_is_zero_fraction
    (self : DASHAnalyzer) (target : GRNATarget) (m : DepletionMetrics)
    (Hnone : control_bam self = None)
    (Hm : analyze_grna_target self target = Ok m) :
  depletion_efficiency m = zero_coverage_fraction m.
Proof.
  destruct (analyze_inversion _ _ _ Hm)
    as [treated [control [_ [Hc [_ [_ [_ [_ [Hd [Hz _]]]]]]]]]].
  rewrite Hd, Hz, (Hc Hnone). unfold calculate_depletion_efficiency.
  destruct treated; reflexivity.
Qed.

Lemma efficiency_without_control_is_zero_fraction_witness :
  control_bam (mkAnalyzer (fun _ _ _ => [(101, 7)]) None) = None /\
  forall m,
    analyze_grna_target (mkAnalyzer (fun _ _ _ => [(101, 7)]) None)
      (mkTarget "gRNA1" "chr1" 100 104) = Ok m ->
    depletion_efficiency m = zero_coverage_fraction m.
Proof.
  split; [reflexivity|]. intros m Hm.
  exact (efficiency_without_control_is_zero_fraction
           (mkAnalyzer (fun _ _ _ => [(101, 7)]) None)
           (mkTarget "gRNA1" "chr1" 100 104) m eq_refl Hm).
Defined.

Lemma positive_mean_cv (self : DASHAnalyzer) (target : GRNATarget)
    (m : DepletionMetrics) :
  analyze_grna_target self target = Ok m ->
  fgt (mean_coverage m) (Fin 0) = true ->
  exists c, (0 <= c)%R /\ coefficient_of_variation m = Fin c /\
            coverage_uniformity m = Fin (1 / (1 + c)).
Proof.
  intros Hm Hpos.
  destruct (analyze_inversion _ _ _ Hm)
    as [treated [control [_ [_ [_ [_ [Hmean [Hu [_ [_ Hcv]]]]]]]]]].
  rewrite Hmean in Hpos. rewrite Hcv, Hu, Hpos.
  assert (Hne : treated <> []).
  { intros ->. change (as_float []) with (@nil fval) in Hpos.
    rewrite np_mean_nil in Hpos. discriminate. }
  rewrite np_mean_coverage in Hpos by assumption.
  unfold fgt, flt in Hpos. apply Rltb_lt in Hpos.
  rewrite uniformity_value by assumption.
  rewrite np_mean_coverage, np_std_coverage by assumption.
  cbn [fdiv]. rewrite Reqb_false by lra.
  eexists. split; [|split; reflexivity].
  apply Rmult_le_pos; [apply pstd_R_nonneg|]. left. now apply Rinv_0_lt_compat.
Qed.

(** X10: for a record with positive mean coverage the coverage uniformity is
    [1 / (1 + cv)] of the same record's coefficient of variation, which is
    finite and non-negative. *)
Theorem uniformity_is_inverse_of_cv
    (self : DASHAnalyzer) (target : GRNATarget) (m : DepletionMetrics)
    (Hm : analyze_grna_target self target = Ok m)
    (Hpos : fgt (mean_coverage m) (Fin 0) = true) :
  coverage_uniformity m = fdiv (Fin 1) (fadd (Fin 1) (coefficient_of_variation m)) /\
  exists c, (0 <= c)%R /\ coefficient_of_variation m = Fin c /\
            coverage_uniformity m = Fin (1 / (1 + c)).
Proof.
  destruct (positive_mean_cv _ _ _ Hm Hpos) as [c [Hc [Hcv Hu]]].
  split; [|exists c; repeat split; assumption].
  rewrite Hcv, Hu. cbn [fadd fdiv]. now rewrite Reqb_false by lra.
Qed.

Lemma analyze_one_column :
  analyze_grna_target (mkAnalyzer (fun _ _ _ => [(101, 7)]) None)
    (mkTarget "gRNA1" "chr1" 100 104) =
  Ok (mkMetrics "gRNA1" ("chr1"%string, 100, 104)
        (np_mean (as_float [0; 7; 0; 0])) (np_median (as_float [0; 7; 0; 0]))
        (calculate_depletion_efficiency [0; 7; 0; 0] None)
        (calculate_uniformity [0; 7; 0; 0])
        (fdiv (of_nat (count_zero [0; 7; 0; 0])) (of_nat 4))
        (if fgt (np_mean (as_float [0; 7; 0; 0])) (Fin 0)
         then fdiv (np_std 0 (as_float [0; 7; 0; 0])) (np_mean (as_float [0; 7; 0; 0]))
         else Fin 0)).
Proof. reflexivity. Qed.

Lemma mean_one_column_positive : fgt (np_mean (as_float [0; 7; 0; 0])) (Fin 0) = true.
Proof.
  rewrite np_mean_coverage by discriminate. unfold fgt, flt. apply Rltb_true.
  unfold mean_R, Rsum. simpl. lra.
Qed.

Lemma uniformity_is_inverse_of_cv_witness :
  exists m,
    analyze_grna_target (mkAnalyzer (fun _ _ _ => [(101, 7)]) None)
      (mkTarget "gRNA1" "chr1" 100 104) = Ok m /\
    fgt (mean_coverage m) (Fin 0) = true /\
    coverage_uniformity m = fdiv (Fin 1) (fadd (Fin 1) (coefficient_of_variation m)).
Proof.
  eexists. split; [exact analyze_one_column|]. split; [exact mean_one_column_positive|].
  exact (proj1 (uniformity_is_inverse_of_cv _ _ _ analyze_one_column
                  mean_one_column_positive)).
Defined.

(** X11: for a record that [analyze_grna_target] returns with positive mean
    coverage, the inverse-CV term of [rank_grnas] equals the record's coverage
    uniformity, so the default composite score is
    [0.4 * depletion + 0.4 * uniformity + 0.2 * zero_fraction]. *)
Theorem composite_score_of_analyzed_record
    (self : DASHAnalyzer) (target : GRNATarget) (m : DepletionMetrics) (d u z : R)
    (Hm : analyze_grna_target self target = Ok m)
    (Hpos : fgt (mean_coverage m) (Fin 0) = true)
    (Hd : depletion_efficiency m = Fin d)
    (Hu : coverage_uniformity m = Fin u)
    (Hz : zero_coverage_fraction m = Fin z) :
  exists r, score_metrics default_weights m = Ok r /\
            composite_score r = Fin (4 / 10 * d + 4 / 10 * u + 2 / 10 * z).
Proof.
  destruct (positive_mean_cv _ _ _ Hm Hpos) as [c [Hc [Hcv Hu']]].
  rewrite Hu in Hu'. injection Hu' as ->.
  rewrite (score_metrics_default m d (1 / (1 + c)) z c) by (try assumption; lra).
  eexists. split; [reflexivity|]. cbn [composite_score]. f_equal. lra.
Qed.

Lemma composite_score_of_analyzed_record_witness :
  exists (m : DepletionMetrics) (d u z : R),
    analyze_grna_target (mkAnalyzer (fun _ _ _ => [(101, 7)]) None)
      (mkTarget "gRNA1" "chr1" 100 104) = Ok m /\
    fgt (mean_coverage m) (Fin 0) = true /\
    depletion_efficiency m = Fin d /\
    coverage_uniformity m = Fin u /\
    zero_coverage_fraction m = Fin z /\
    exists r, score_metrics default_weights m = Ok r /\
              composite_score r = Fin (4 / 10 * d + 4 / 10 * u + 2 / 10 * z).
Proof.
  assert (Hmean : (0 < mean_R (reals [0; 7; 0; 0]%Z))%R).
  { unfold mean_R, Rsum. simpl. lra. }
  assert (Hd : calculate_depletion_efficiency [0; 7; 0; 0] None =
               Fin (INR (count_zero [0; 7; 0; 0]) / INR (length [0; 7; 0; 0]%Z))).
  { apply depletion_without_control. discriminate. }
  assert (Hu : calculate_uniformity [0; 7; 0; 0] =
               Fin (1 / (1 + pstd_R (reals [0; 7; 0; 0]) / mean_R (reals [0; 7; 0; 0])))).
  { apply uniformity_value; [discriminate|exact Hmean]. }
  assert (Hz : fdiv (of_nat (count_zero [0; 7; 0; 0])) (of_nat 4) =
               Fin (INR (count_zero [0; 7; 0; 0]) / INR 4)).
  { unfold of_nat, fdiv. rewrite Reqb_false; [reflexivity|]. simpl. lra. }
  eexists _, _, _, _. split; [exact analyze_one_column|].
  split; [exact mean_one_column_positive|].
  split; [exact Hd|]. split; [exact Hu|]. split; [exact Hz|].
  exact (composite_score_of_analyzed_record _ _ _ _ _ _ analyze_one_column
           mean_one_column_positive Hd Hu Hz).
Defined.

(** ** Batches of targets *)

Lemma get_coverage_ok (src : pileup_source) (c : string) (s e : Z) :
  s <= e -> exists coverage, get_coverage src c s e = Ok coverage.
Proof.
  intros H. unfold get_coverage. rewrite (proj2 (Z.ltb_ge (e - s) 0)) by lia.
  eexists. reflexivity.
Qed.

Lemma get_coverage_negative (src : pileup_source) (c : string) (s e : Z) :
  e < s -> get_coverage src c s e = Raise ValueError.
Proof.
  intros H. unfold get_coverage. now rewrite (proj2 (Z.ltb_lt (e - s) 0)) by lia.
Qed.

Lemma analyze_ok_iff (self : DASHAnalyzer) (target : GRNATarget) :
  (start target <= end_ target -> exists m, analyze_grna_target self target = Ok m) /\
  (end_ target < start target -> analyze_grna_target self target = Raise ValueError).
Proof.
  unfold analyze_grna_target. split; intros H.
  - destruct (get_coverage_ok (bam self) (chrom target) _ _ H) as [cov Hcov].
    rewrite Hcov. cbn [bind].
    destruct (control_bam self) as [cb|].
    + destruct (get_coverage_ok cb (chrom target) _ _ H) as [c Hc].
      rewrite Hc. cbn [bind]. eexists. reflexivity.
    + cbn [bind]. eexists. reflexivity.
  - rewrite (get_coverage_negative (bam self) (chrom target) _ _ H). reflexivity.
Qed.

(** X12: [analyze_multiple_targets] returns one record per target, in the
    order of the targets and carrying their names and regions, exactly when no
    target has [end < start]; otherwise it raises [ValueError]. *)
Theorem analyze_multiple_targets_order (self : DASHAnalyzer)
    (targets : list GRNATarget) :
  (Forall (fun t => start t <= end_ t) targets ->
   exists ms, Batch.analyze_multiple_targets self targets = Ok ms /\
              map grna_name ms = map name targets /\
              map target_region ms = map (fun t => (chrom t, start t, end_ t)) targets) /\
  (Exists (fun t => end_ t < start t) targets ->
   Batch.analyze_multiple_targets self targets = Raise ValueError).
Proof.
  split.
  - induction 1 as [|t targets Ht _ [ms [Hms [Hn Hr]]]].
    + exists []. repeat split; reflexivity.
    + destruct (proj1 (analyze_ok_iff self t) Ht) as [m Hm].
      destruct (analyze_inversion _ _ _ Hm) as [? [? [_ [_ [Hname [Hreg _]]]]]].
      exists (m :: ms). cbn [Batch.analyze_multiple_targets].
      rewrite Hm. cbn [bind]. rewrite Hms. cbn [bind map].
      rewrite Hname, Hreg, Hn, Hr. repeat split; reflexivity.
  - induction targets as [|t targets IH]; intros Hex.
    + inversion Hex.
    + cbn [Batch.analyze_multiple_targets].
      destruct (Z_lt_le_dec (end_ t) (start t)) as [Hbad|Hgood].
      * rewrite (proj2 (analyze_ok_iff self t) Hbad). reflexivity.
      * destruct (proj1 (analyze_ok_iff self t) Hgood) as [m Hm].
        rewrite Hm. cbn [bind]. rewrite IH; [reflexivity|].
        inversion Hex as [? ? Hhd|? ? Htl]; subst; [lia|exact Htl].
Qed.

Lemma analyze_multiple_targets_order_witness :
  Forall (fun t => start t <= end_ t)
         [mkTarget "g1" "chr1" 100 104; mkTarget "g2" "chr1" 300 300] /\
  exists ms,
    Batch.analyze_multiple_targets (mkAnalyzer (fun _ _ _ => []) None)
      [mkTarget "g1" "chr1" 100 104; mkTarget "g2" "chr1" 300 300] = Ok ms /\
    map grna_name ms = ["g1"%string; "g2"%string].
Proof.
  assert (H : Forall (fun t => start t <= end_ t)
                [mkTarget "g1" "chr1" 100 104; mkTarget "g2" "chr1" 300 300]).
  { repeat constructor; simpl; lia. }
  split; [exact H|].
  destruct (proj1 (analyze_multiple_targets_order (mkAnalyzer (fun _ _ _ => []) None) _) H)
    as [ms [Hms [Hn _]]].
  exists ms. split; [exact Hms|exact Hn].
Defined.

(** ** Effect size of a group against itself *)

Lemma moderate_magnitude (x : R) : (Rabs x <= 10)%R -> (Rabs x <= 10 ^ 100)%R.
Proof.
  intros H. apply Rle_trans with (10 ^ 1)%R; [simpl; lra|].
  apply Rle_pow; [lra|lia].
Qed.

(** X13: Cohen's d of a group of at least two finite values against itself
    is 0, whether or not the values vary.  The values are taken of magnitude
    at most [10^100], so that their sum is far from the largest double and the
    two means, which the code subtracts, are finite. *)
Theorem cohens_d_self_zero (xs : list R) (Hlen : (2 <= length xs)%nat)
    (Hmagnitude : Forall (fun x => (Rabs x <= 10 ^ 100)%R) xs) :
  calculate_cohens_d (map Fin xs) (map Fin xs) = Fin 0.
Proof.
  assert (Hne : xs <> []) by (intros ->; simpl in Hlen; lia).
  unfold calculate_cohens_d.
  rewrite np_var_Fin, np_mean_Fin, length_map by (try assumption; lia).
  assert (Hk : (1 <= IZR (Z.of_nat (length xs) - 1))%R) by (apply IZR_le; lia).
  assert (Hden : (2 <= IZR (Z.of_nat (length xs) + Z.of_nat (length xs) - 2))%R)
    by (apply IZR_le; lia).
  assert (Hv : (0 <= sq_dev xs / INR (length xs - 1))%R).
  { apply Rmult_le_pos; [apply sq_dev_nonneg|]. left. apply Rinv_0_lt_compat.
    apply lt_0_INR. lia. }
  set (k := IZR (Z.of_nat (length xs) - 1)) in *.
  set (n2 := IZR (Z.of_nat (length xs) + Z.of_nat (length xs) - 2)) in *.
  set (v := (sq_dev xs / INR (length xs - 1))%R) in *.
  unfold of_int. fold k n2. cbn [fmul fadd fdiv]. rewrite (Reqb_false n2 0) by lra.
  cbn [fsqrt]. rewrite Rltb_false.
  2:{ apply Rmult_le_pos; [nra|]. left. apply Rinv_0_lt_compat. lra. }
  cbn [feq]. destruct (Reqb (sqrt ((k * v + k * v) / n2)) 0) eqn:Hs; [reflexivity|].
  cbn [fsub fneg fadd fdiv]. rewrite Hs. f_equal. unfold Rdiv. ring.
Qed.

Lemma cohens_d_self_zero_witness :
  (2 <= length [1%R; 4%R; 7%R])%nat /\
  Forall (fun x => (Rabs x <= 10 ^ 100)%R) [1%R; 4%R; 7%R] /\
  calculate_cohens_d (map Fin [1%R; 4%R; 7%R]) (map Fin [1%R; 4%R; 7%R]) = Fin 0.
Proof.
  assert (H : (2 <= length [1%R; 4%R; 7%R])%nat) by (simpl; lia).
  assert (Hm : Forall (fun x => (Rabs x <= 10 ^ 100)%R) [1%R; 4%R; 7%R]).
  { assert (Hsmall : forall x : R, (0 <= x <= 10)%R -> (Rabs x <= 10 ^ 100)%R).
    { intros x Hx. apply moderate_magnitude. rewrite Rabs_pos_eq; lra. }
    constructor; [apply Hsmall; lra|].
    constructor; [apply Hsmall; lra|].
    constructor; [apply Hsmall; lra|constructor]. }
  split; [exact H|]. split; [exact Hm|]. exact (cohens_d_self_zero _ H Hm).
Defined.

(** ** Summary statistics of a non-empty collection *)

Lemma summarize_nonempty (x : fval) (values : list fval) :
  exists row, summarize (x :: values) = Ok row.
Proof. unfold summarize. cbn [np_min np_max bind]. eexists. reflexivity. Qed.

(** X14: on a non-empty collection [generate_summary_statistics] raises
    nothing and returns six rows, one per metric, in the order depletion
    efficiency, coverage uniformity, zero-coverage fraction, coefficient of
    variation, mean coverage, median coverage. *)
Theorem summary_statistics_nonempty (metrics_list : list DepletionMetrics)
    (Hne : metrics_list <> []) :
  exists rows,
    generate_summary_statistics metrics_list = Ok rows /\
    map fst rows =
      [ "Depletion Efficiency"%string; "Coverage Uniformity"%string;
        "Zero Coverage Fraction"%string; "Coefficient of Variation"%string;
        "Mean Coverage"%string; "Median Coverage"%string ].
Proof.
  destruct metrics_list as [|m ml]; [contradiction|].
  unfold generate_summary_statistics, summary_columns. cbn [map summarize_all].
  repeat match goal with
    | |- context [summarize (?x :: ?l)] =>
        let row := fresh "row" in
        let Hrow := fresh "Hrow" in
        destruct (summarize_nonempty x l) as [row Hrow]; rewrite Hrow; cbn [bind]
    end.
  eexists. split; reflexivity.
Qed.

Lemma summary_statistics_nonempty_witness :
  [tied_a] <> [] /\ exists rows, generate_summary_statistics [tied_a] = Ok rows.
Proof.
  assert (H : [tied_a] <> []) by discriminate.
  split; [exact H|].
  destruct (summary_statistics_nonempty [tied_a] H) as [rows [Hrows _]].
  exists rows. exact Hrows.
Defined.

(** ** Composite score *)

(** X15: under the default weights a record whose depletion efficiency,
    coverage uniformity and zero-coverage fraction lie in [0, 1] and whose
    coefficient of variation is non-negative is scored without error, with a
    composite score in (0, 1]. *)
Theorem composite_score_range (m : DepletionMetrics) (d u z c : R)
    (Hd : depletion_efficiency m = Fin d) (Hu : coverage_uniformity m = Fin u)
    (Hz : zero_coverage_fraction m = Fin z) (Hc : coefficient_of_variation m = Fin c)
    (Hdr : (0 <= d <= 1)%R) (Hur : (0 <= u <= 1)%R) (Hzr : (0 <= z <= 1)%R)
    (Hcr : (0 <= c)%R) :
  exists r s, score_metrics default_weights m = Ok r /\
              composite_score r = Fin s /\ (0 < s <= 1)%R.
Proof.
  rewrite (score_metrics_default m d u z c) by (try assumption; lra).
  eexists _, _. split; [reflexivity|]. split; [reflexivity|].
  assert (Hi : (0 < 1 / (1 + c) <= 1)%R).
  { split.
    - apply Rdiv_lt_0_compat; lra.
    - unfold Rdiv. rewrite Rmult_1_l. apply Rle_trans with (/ 1)%R.
      + apply Rinv_le_contravar; lra.
      + rewrite Rinv_1. lra. }
  lra.
Qed.

Lemma composite_score_range_witness :
  (0 <= 1 <= 1)%R /\ (0 <= 0)%R /\
  exists r s, score_metrics default_weights tied_a = Ok r /\
              composite_score r = Fin s /\ (0 < s <= 1)%R.
Proof.
  assert (H1 : (0 <= 1 <= 1)%R) by lra. assert (H0 : (0 <= 0)%R) by lra.
  split; [exact H1|]. split; [exact H0|].
  exact (composite_score_range tied_a 1 1 1 0 eq_refl eq_refl eq_refl eq_refl
           H1 H1 H1 H0).
Defined.

(** ** Exceptions of the ranking *)

Lemma rank_grnas_raises (ml : list DepletionMetrics)
    (weights : option (gmap string fval)) (e : exn)
    (res : result (list (Z * score_row))) :
  score_all (default default_weights weights) ml = Raise e ->
  rank_grnas ml weights res -> res = Raise e.
Proof.
  intros Hs H. inversion H as [e' He|He|scores sorted He _ _]; subst;
    rewrite Hs in He; try discriminate. now injection He as <-.
Qed.

Lemma score_all_zero_division (ml : list DepletionMetrics) :
  Exists (fun m => coefficient_of_variation m = Fin (-1)) ml ->
  score_all default_weights ml = Raise ZeroDivisionError.
Proof.
  induction ml as [|m ml IH]; intros Hex; [inversion Hex|].
  cbn [score_all]. unfold score_metrics, py_div.
  destruct (feq (fadd (Fin 1) (coefficient_of_variation m)) (Fin 0)) eqn:Hz;
    [reflexivity|].
  rewrite weight_default_depletion, weight_default_uniformity,
    weight_default_zero_coverage, weight_default_cv. cbn [bind].
  inversion Hex as [? ? Hhd|? ? Htl]; subst.
  - rewrite Hhd in Hz. cbn [fadd feq] in Hz. rewrite Reqb_true in Hz by lra. discriminate.
  - rewrite (IH Htl). reflexivity.
Qed.

(** X16: under the default weights, a list that holds a record whose
    coefficient of variation is -1 makes [rank_grnas] raise
    [ZeroDivisionError], wherever the record stands in the list. *)
Theorem rank_grnas_zero_division (metrics_list : list DepletionMetrics)
    (res : result (list (Z * score_row)))
    (Hcv : Exists (fun m => coefficient_of_variation m = Fin (-1)) metrics_list)
    (Hres : rank_grnas metrics_list None res) :
  res = Raise ZeroDivisionError.
Proof.
  apply (rank_grnas_raises metrics_list None); [|exact Hres].
  now apply score_all_zero_division.
Qed.

Lemma rank_grnas_zero_division_witness :
  let bad := mkMetrics "g" ("chr1"%string, 0, 4) (Fin 1) (Fin 1) (Fin 1) (Fin 1)
                       (Fin 0) (Fin (-1)) in
  Exists (fun m => coefficient_of_variation m = Fin (-1)) [tied_a; bad] /\
  rank_grnas [tied_a; bad] None (Raise ZeroDivisionError) /\
  forall res, rank_grnas [tied_a; bad] None res -> res = Raise ZeroDivisionError.
Proof.
  intros bad.
  assert (Hex : Exists (fun m => coefficient_of_variation m = Fin (-1)) [tied_a; bad]).
  { apply Exists_cons_tl, Exists_cons_hd. reflexivity. }
  split; [exact Hex|]. split.
  - apply rank_scoring_raises. now apply score_all_zero_division.
  - intros res Hres. exact (rank_grnas_zero_division _ res Hex Hres).
Defined.

Lemma score_metrics_missing_weight (w : gmap string fval) (m : DepletionMetrics) :
  w !! "depletion"%string = None \/ w !! "uniformity"%string = None \/
  w !! "zero_coverage"%string = None \/ w !! "cv"%string = None ->
  feq (fadd (Fin 1) (coefficient_of_variation m)) (Fin 0) = false ->
  score_metrics w m = Raise KeyError.
Proof.
  intros Hmiss Hcv. unfold score_metrics, py_div, weight. rewrite Hcv. cbn [bind].
  destruct (w !! "depletion"%string); [|reflexivity]. cbn [bind].
  destruct (w !! "uniformity"%string); [|reflexivity]. cbn [bind].
  destruct (w !! "zero_coverage"%string); [|reflexivity]. cbn [bind].
  destruct (w !! "cv"%string); [|reflexivity].
  destruct Hmiss as [H|[H|[H|H]]]; discriminate.
Qed.

(** X17: with a weights dict that lacks one of the keys [depletion],
    [uniformity], [zero_coverage], [cv], [rank_grnas] raises [KeyError] for
    every list whose records have [1 + cv <> 0], the empty list included. *)
Theorem rank_grnas_missing_weight (metrics_list : list DepletionMetrics)
    (w : gmap string fval) (res : result (list (Z * score_row)))
    (Hmiss : w !! "depletion"%string = None \/ w !! "uniformity"%string = None \/
             w !! "zero_coverage"%string = None \/ w !! "cv"%string = None)
    (Hcv : Forall (fun m => feq (fadd (Fin 1) (coefficient_of_variation m)) (Fin 0)
                            = false) metrics_list)
    (Hres : rank_grnas metrics_list (Some w) res) :
  res = Raise KeyError.
Proof.
  destruct Hcv as [|m ml Hm _].
  - inversion Hres as [e He|He|scores sorted He Hne _]; subst.
    + discriminate.
    + reflexivity.
    + cbn in He. injection He as <-. contradiction.
  - apply (rank_grnas_raises (m :: ml) (Some w)); [|exact Hres].
    cbn [default score_all]. now rewrite score_metrics_missing_weight.
Qed.

Lemma rank_grnas_missing_weight_witness :
  (({["depletion"%string := Fin 1]} : gmap string fval) !! "uniformity"%string = None) /\
  rank_grnas [tied_a] (Some {["depletion"%string := Fin 1]}) (Raise KeyError) /\
  forall res, rank_grnas [tied_a] (Some {["depletion"%string := Fin 1]}) res ->
              res = Raise KeyError.
Proof.
  assert (Hu : ({["depletion"%string := Fin 1]} : gmap string fval)
                 !! "uniformity"%string = None).
  { apply lookup_singleton_ne. discriminate. }
  assert (Hcv : Forall (fun m => feq (fadd (Fin 1) (coefficient_of_variation m)) (Fin 0)
                                 = false) [tied_a]).
  { repeat constructor. cbn. apply Reqb_false. lra. }
  split; [exact Hu|]. split.
  - apply rank_scoring_raises. cbn [default score_all].
    rewrite score_metrics_missing_weight; [reflexivity|now right; left|].
    cbn. apply Reqb_false. lra.
  - intros res Hres.
    exact (rank_grnas_missing_weight [tied_a] _ res (or_intror (or_introl Hu)) Hcv Hres).
Defined.

(** ** Z-scores in small collections *)










(** ** Design recommendations *)

Lemma threshold_values :
  Design.threshold "depletion_critical" = Fin (3 / 10) /\
  Design.threshold "depletion_warning" = Fin (6 / 10) /\
  Design.threshold "uniformity_critical" = Fin (3 / 10) /\
  Design.threshold "uniformity_warning" = Fin (5 / 10) /\
  Design.threshold "cv_warning" = Fin 1 /\
  Design.threshold "cv_critical" = Fin 2 /\
  Design.threshold "zero_coverage_low" = Fin (5 / 10).
Proof. repeat split; reflexivity. Qed.

(** Unfold the six checks with the threshold values in place. *)
Ltac open_performance :=
  unfold Design.analyze_grna_performance;
  destruct threshold_values as [-> [-> [-> [-> [-> [-> ->]]]]]].

(** Split membership in the concatenation into the six checks. *)
Ltac split_checks H :=
  repeat (apply in_app_or in H; destruct H as [H|H]).

(** Settle one check: decide its conditions and read off the single record. *)
Ltac settle_check H :=
  repeat match type of H with
    | context [if ?c then _ else _] => destruct c eqn:?
    end;
  cbn [In] in H;
  first [ contradiction | destruct H as [<-|[]] ].

(** X19: every recommendation of [analyze_grna_performance] carries the name
    of the analysed gRNA, and its severity and priority agree: critical with
    priority 5 or 4, warning with 3 or 2, info with 2 or 0. *)
Theorem recommendation_severity_priority
    (fmt_3f fmt_pct : fval -> string) (metrics : DepletionMetrics)
    (r : Design.DesignRecommendation)
    (Hin : In r (Design.analyze_grna_performance fmt_3f fmt_pct metrics)) :
  Design.grna_name r = Analyzer.grna_name metrics /\
  ((Design.severity r = "critical"%string /\
    (Design.priority r = 5 \/ Design.priority r = 4)) \/
   (Design.severity r = "warning"%string /\
    (Design.priority r = 3 \/ Design.priority r = 2)) \/
   (Design.severity r = "info"%string /\
    (Design.priority r = 2 \/ Design.priority r = 0))).
Proof.
  revert Hin. open_performance. intros Hin. split_checks Hin;
    settle_check Hin; cbn; split; try reflexivity; tauto.
Qed.

Lemma performance_of_tied_a :
  Design.analyze_grna_performance (fun _ => ""%string) (fun _ => ""%string) tied_a =
  [ Design.mkRecommendation "gRNA_a" "info" "Performance" "Excellent performance"
      "This gRNA shows excellent depletion efficiency and uniformity. No changes needed. Consider using similar design principles for other gRNAs."
      0 ].
Proof.
  open_performance. unfold Design.fge, fgt, feq. cbn [tied_a depletion_efficiency
    coverage_uniformity zero_coverage_fraction coefficient_of_variation flt].
  rdecide. reflexivity.
Qed.

Lemma recommendation_severity_priority_witness :
  exists r,
    In r (Design.analyze_grna_performance (fun _ => ""%string) (fun _ => ""%string)
            tied_a) /\
    Design.grna_name r = Analyzer.grna_name tied_a.
Proof.
  eexists. split.
  - rewrite performance_of_tied_a. left. reflexivity.
  - refine (proj1 (recommendation_severity_priority (fun _ => ""%string)
                     (fun _ => ""%string) tied_a _ _)).
    rewrite performance_of_tied_a. left. reflexivity.
Defined.

Lemma excellent_excludes (d u : fval) :
  fgt d (Fin (8 / 10)) && fgt u (Fin (7 / 10)) = true ->
  flt d (Fin (3 / 10)) = false /\ flt d (Fin (6 / 10)) = false /\
  flt u (Fin (3 / 10)) = false /\ flt u (Fin (5 / 10)) = false /\
  flt u (Fin (6 / 10)) = false.
Proof.
  intros H. apply andb_true_iff in H as [Hd Hu]. unfold fgt in *.
  destruct d as [x| | |], u as [y| | |]; cbn [flt] in *; try discriminate;
    apply Rltb_lt in Hd || idtac; apply Rltb_lt in Hu || idtac;
    repeat split; try reflexivity; apply Rltb_false; lra.
Qed.

(** X20: [analyze_grna_performance] returns at most five recommendations, no
    two of them in the same category. *)
Theorem recommendations_one_per_category
    (fmt_3f fmt_pct : fval -> string) (metrics : DepletionMetrics) :
  NoDup (map Design.category (Design.analyze_grna_performance fmt_3f fmt_pct metrics)) /\
  (length (Design.analyze_grna_performance fmt_3f fmt_pct metrics) <= 5)%nat.
Proof.
  open_performance.
  destruct (fgt (depletion_efficiency metrics) (Fin (8 / 10))
            && fgt (coverage_uniformity metrics) (Fin (7 / 10))) eqn:Hgood.
  - destruct (excellent_excludes _ _ Hgood) as [-> [-> [-> [-> ->]]]].
    rewrite andb_false_r.
    destruct (fgt (coefficient_of_variation metrics) (Fin 2));
      destruct (fgt (coefficient_of_variation metrics) (Fin 1));
      destruct (flt (zero_coverage_fraction metrics) (Fin (5 / 10))
                && Design.fge (depletion_efficiency metrics) (Fin (5 / 10)));
      cbn [app map Design.category length];
      (split; [apply (bool_decide_unpack _); vm_compute; exact I|lia]).
  - destruct (flt (depletion_efficiency metrics) (Fin (3 / 10)));
      destruct (flt (depletion_efficiency metrics) (Fin (6 / 10)));
      destruct (flt (coverage_uniformity metrics) (Fin (3 / 10)));
      destruct (flt (coverage_uniformity metrics) (Fin (5 / 10)));
      destruct (fgt (coefficient_of_variation metrics) (Fin 2));
      destruct (fgt (coefficient_of_variation metrics) (Fin 1));
      destruct (flt (zero_coverage_fraction metrics) (Fin (5 / 10))
                && Design.fge (depletion_efficiency metrics) (Fin (5 / 10)));
      destruct (fgt (coefficient_of_variation metrics) (Fin (8 / 10))
                && flt (coverage_uniformity metrics) (Fin (6 / 10)));
      cbn [app map Design.category length];
      (split; [apply (bool_decide_unpack _); vm_compute; exact I|lia]).
Qed.

(** X21: when [analyze_grna_performance] reports excellent performance, it
    reports nothing about depletion efficiency, coverage uniformity or edge
    effects: every other recommendation concerns coverage variation or
    coverage completeness. *)
Theorem excellent_performance_companions
    (fmt_3f fmt_pct : fval -> string) (metrics : DepletionMetrics)
    (r r' : Design.DesignRecommendation)
    (Hr : In r (Design.analyze_grna_performance fmt_3f fmt_pct metrics))
    (Hperf : Design.category r = "Performance"%string)
    (Hr' : In r' (Design.analyze_grna_performance fmt_3f fmt_pct metrics)) :
  Design.category r' = "Performance"%string \/
  Design.category r' = "Coverage Variation"%string \/
  Design.category r' = "Coverage Completeness"%string.
Proof.
  revert Hr Hr'. open_performance. intros Hr Hr'.
  assert (Hgood : fgt (depletion_efficiency metrics) (Fin (8 / 10))
                  && fgt (coverage_uniformity metrics) (Fin (7 / 10)) = true).
  { clear Hr'. split_checks Hr; settle_check Hr; cbn in Hperf;
      try discriminate Hperf. reflexivity. }
  destruct (excellent_excludes _ _ Hgood) as [Hd1 [Hd2 [Hu1 [Hu2 Hu3]]]].
  rewrite Hd1, Hd2, Hu1, Hu2, Hu3, andb_false_r in Hr'.
  cbn [app] in Hr'. split_checks Hr'; settle_check Hr'; cbn; tauto.
Qed.

Lemma excellent_performance_companions_witness :
  exists r,
    In r (Design.analyze_grna_performance (fun _ => ""%string) (fun _ => ""%string)
            tied_a) /\
    Design.category r = "Performance"%string /\
    forall r',
      In r' (Design.analyze_grna_performance (fun _ => ""%string) (fun _ => ""%string)
               tied_a) ->
      Design.category r' = "Performance"%string \/
      Design.category r' = "Coverage Variation"%string \/
      Design.category r' = "Coverage Completeness"%string.
Proof.
  assert (Hin : In (Design.mkRecommendation "gRNA_a" "info" "Performance"
                      "Excellent performance"
                      "This gRNA shows excellent depletion efficiency and uniformity. No changes needed. Consider using similar design principles for other gRNAs."
                      0)
                   (Design.analyze_grna_performance (fun _ => ""%string)
                      (fun _ => ""%string) tied_a)).
  { rewrite performance_of_tied_a. left. reflexivity. }
  eexists. split; [exact Hin|]. split; [reflexivity|].
  intros r' Hr'.
  exact (excellent_performance_companions _ _ tied_a _ r' Hin eq_refl Hr').
Defined.

(** X22: [analyze_grna_performance] issues a recommendation of severity
    critical exactly when the depletion efficiency is below 0.3, the coverage
    uniformity is below 0.3, or the coefficient of variation is above 2.0 (a
    NaN metric satisfies none of the three). *)
Theorem critical_iff_thresholds
    (fmt_3f fmt_pct : fval -> string) (metrics : DepletionMetrics) :
  (exists r, In r (Design.analyze_grna_performance fmt_3f fmt_pct metrics) /\
             Design.severity r = "critical"%string) <->
  (flt (depletion_efficiency metrics) (Fin (3 / 10)) = true \/
   flt (coverage_uniformity metrics) (Fin (3 / 10)) = true \/
   fgt (coefficient_of_variation metrics) (Fin 2) = true).
Proof.
  open_performance. split.
  - intros [r [Hin Hsev]]. split_checks Hin; settle_check Hin; cbn in Hsev;
      try discriminate Hsev; tauto.
  - intros [H|[H|H]]; rewrite H.
    + eexists. split; [apply in_or_app; left; left; reflexivity|reflexivity].
    + eexists. split;
        [apply in_or_app; right; apply in_or_app; left; left; reflexivity|reflexivity].
    + eexists. split;
        [apply in_or_app; right; apply in_or_app; right; apply in_or_app; left;
         left; reflexivity|reflexivity].
Qed.

(** ** Annotations loaded from BED *)

Lemma add_line_cases (strip : string -> string) (py_int : string -> option Z)
    (a : gmap string (list Loader.bed_record)) (line : string) :
  Loader.add_line strip py_int a line =
  if Loader.is_malformed strip py_int line then Raise ValueError
  else match Loader.record_of_line strip py_int line with
       | None => Ok a
       | Some (c, r) => Ok (<[c := default [] (a !! c) ++ [r]]> a)
       end.
Proof.
  unfold Loader.add_line, Loader.is_malformed, Loader.record_of_line.
  destruct (Loader.is_skipped line); [reflexivity|].
  destruct (length (Loader.split Loader.tab (strip line)) <? 3)%nat; [reflexivity|].
  destruct (py_int (nth 1 (Loader.split Loader.tab (strip line)) ""%string));
    [|reflexivity].
  destruct (py_int (nth 2 (Loader.split Loader.tab (strip line)) ""%string));
    reflexivity.
Qed.

Lemma read_lines_app (strip : string -> string) (py_int : string -> option Z)
    (a : gmap string (list Loader.bed_record)) (l1 l2 : list string) :
  Loader.read_lines strip py_int a (l1 ++ l2) =
  (let! a' := Loader.read_lines strip py_int a l1 in
   Loader.read_lines strip py_int a' l2).
Proof.
  revert a. induction l1 as [|line l1 IH]; intros a; [reflexivity|].
  cbn [app Loader.read_lines].
  destruct (Loader.add_line strip py_int a line) as [a'|e]; [|reflexivity].
  cbn [bind]. apply IH.
Qed.

Lemma record_leb_start (a b : Loader.bed_record) :
  (Loader.record_leb a b = true -> fst (fst a) <= fst (fst b)) /\
  (Loader.record_leb a b = false -> fst (fst b) <= fst (fst a)).
Proof.
  unfold Loader.record_leb.
  destruct (fst (fst a) <? fst (fst b)) eqn:H1.
  { apply Z.ltb_lt in H1. split; [lia|discriminate]. }
  apply Z.ltb_ge in H1.
  destruct (fst (fst b) <? fst (fst a)) eqn:H2.
  { apply Z.ltb_lt in H2. split; [discriminate|lia]. }
  apply Z.ltb_ge in H2. split; intros _; lia.
Qed.

Lemma insert_record_perm (a : Loader.bed_record) (l : list Loader.bed_record) :
  Permutation (a :: l) (Loader.insert_record a l).
Proof.
  induction l as [|b l IH]; [apply Permutation.Permutation_refl|].
  cbn [Loader.insert_record]. destruct (Loader.record_leb a b).
  - apply Permutation.Permutation_refl.
  - eapply Permutation.perm_trans; [apply Permutation.perm_swap|].
    now apply Permutation.perm_skip.
Qed.

Lemma sort_records_perm (l : list Loader.bed_record) :
  Permutation l (Loader.sort_records l).
Proof.
  unfold Loader.sort_records. induction l as [|a l IH]; [constructor|].
  cbn [fold_right]. eapply Permutation.perm_trans; [|apply insert_record_perm].
  now apply Permutation.perm_skip.
Qed.

Lemma insert_record_sorted (a : Loader.bed_record) (l : list Loader.bed_record) :
  StronglySorted (fun x y => fst (fst x) <= fst (fst y)) l ->
  StronglySorted (fun x y => fst (fst x) <= fst (fst y)) (Loader.insert_record a l).
Proof.
  induction 1 as [|b l Hs IH Hall]; [repeat constructor|].
  cbn [Loader.insert_record]. destruct (Loader.record_leb a b) eqn:Hab.
  - apply (proj1 (record_leb_start a b)) in Hab.
    constructor; [now constructor|]. constructor; [exact Hab|].
    rewrite List.Forall_forall in *. intros x Hx. specialize (Hall x Hx). lia.
  - apply (proj2 (record_leb_start a b)) in Hab.
    constructor; [exact IH|]. rewrite List.Forall_forall in *. intros x Hx.
    apply (Permutation.Permutation_in x
             (Permutation.Permutation_sym (insert_record_perm a l))) in Hx.
    destruct Hx as [<-|Hx]; [exact Hab|now apply Hall].
Qed.

Lemma sort_records_sorted (l : list Loader.bed_record) :
  StronglySorted (fun x y => fst (fst x) <= fst (fst y)) (Loader.sort_records l).
Proof.
  unfold Loader.sort_records. induction l as [|a l IH]; [constructor|].
  cbn [fold_right]. now apply insert_record_sorted.
Qed.

Lemma to_annotation_sorted (l : list Loader.bed_record) :
  StronglySorted (fun x y => fst (fst x) <= fst (fst y)) l ->
  sorted_by_start (map Loader.to_annotation l).
Proof.
  unfold sorted_by_start. induction 1 as [|b l Hs IH Hall]; [constructor|].
  cbn [map]. constructor; [exact IH|].
  rewrite List.Forall_forall in *. intros x Hx.
  apply in_map_iff in Hx as [r [<- Hr]]. exact (Hall r Hr).
Qed.

Lemma load_inversion (strip : string -> string) (py_int : string -> option Z)
    (lines : list string) (idx : gmap string (list Loader.bed_record)) :
  Loader.load_annotations_from_bed strip py_int lines = Ok idx ->
  exists a, Loader.read_lines strip py_int ∅ lines = Ok a /\
            idx = Loader.sort_records <$> a.
Proof.
  unfold Loader.load_annotations_from_bed. intros H.
  destruct (Loader.read_lines strip py_int ∅ lines) as [a|e]; [|discriminate].
  cbn [bind] in H. injection H as <-. exists a. split; reflexivity.
Qed.

(** X23: every chromosome list of an index loaded from BED is sorted by
    start, so on a loaded index [check_overlap] answers true exactly when some
    loaded record overlaps the read. *)
Theorem bed_index_sorted_and_exact
    (strip : string -> string) (py_int : string -> option Z)
    (lines : list string) (idx : gmap string (list Loader.bed_record))
    (chrom : string) (anns : list annotation)
    (Hload : Loader.load_annotations_from_bed strip py_int lines = Ok idx)
    (Hchrom : Loader.as_index idx !! chrom = Some anns) :
  sorted_by_start anns /\
  forall rs re,
    check_overlap rs re anns = true <->
    exists a, In a anns /\ rs < ann_end a /\ re > ann_start a.
Proof.
  destruct (load_inversion _ _ _ _ Hload) as [a [_ ->]].
  unfold Loader.as_index in Hchrom. rewrite !lookup_fmap in Hchrom.
  destruct (a !! chrom) as [recs|]; [|discriminate].
  cbn in Hchrom. injection Hchrom as <-.
  assert (Hs : sorted_by_start (map Loader.to_annotation (Loader.sort_records recs))).
  { apply to_annotation_sorted, sort_records_sorted. }
  split; [exact Hs|]. intros rs re.
  rewrite check_overlap_any by exact Hs. apply any_overlap_spec.
Qed.

Lemma load_sample_lines :
  Loader.load_annotations_from_bed (fun s => s) sample_int
    [line_gene_b; line_comment; line_gene_a] =
  Ok (<["chr1"%string := [(100, 200, "geneA"%string); (300, 400, "geneB"%string)]]> ∅).
Proof. vm_compute. reflexivity. Qed.

Lemma bed_index_sorted_and_exact_witness :
  exists idx anns,
    Loader.load_annotations_from_bed (fun s => s) sample_int
      [line_gene_b; line_comment; line_gene_a] = Ok idx /\
    Loader.as_index idx !! "chr1"%string = Some anns /\
    sorted_by_start anns.
Proof.
  eexists _, _. split; [exact load_sample_lines|].
  assert (Hl : Loader.as_index
                 (<["chr1"%string := [(100, 200, "geneA"%string);
                                      (300, 400, "geneB"%string)]]> ∅)
               !! "chr1"%string =
               Some [(100, 200, Some "geneA"%string); (300, 400, Some "geneB"%string)]).
  { reflexivity. }
  split; [exact Hl|].
  exact (proj1 (bed_index_sorted_and_exact _ _ _ _ _ _ load_sample_lines Hl)).
Defined.

Lemma record_of_skipped (strip : string -> string) (py_int : string -> option Z)
    (line : string) :
  Loader.is_skipped line = true ->
  Loader.is_malformed strip py_int line = false /\
  Loader.record_of_line strip py_int line = None.
Proof.
  intros H. unfold Loader.is_malformed, Loader.record_of_line. rewrite H.
  split; reflexivity.
Qed.

(** X24: a line that starts with [#], [track] or [browser] contributes
    nothing, whatever else it contains: the loaded index (or the exception)
    is the same with and without the line. *)
Theorem bed_comment_lines_ignored
    (strip : string -> string) (py_int : string -> option Z)
    (before after : list string) (line : string)
    (Hskip : Loader.is_skipped line = true) :
  Loader.load_annotations_from_bed strip py_int (before ++ line :: after) =
  Loader.load_annotations_from_bed strip py_int (before ++ after).
Proof.
  unfold Loader.load_annotations_from_bed. rewrite !read_lines_app.
  destruct (Loader.read_lines strip py_int ∅ before) as [a|e]; [|reflexivity].
  cbn [bind Loader.read_lines]. rewrite add_line_cases.
  destruct (record_of_skipped strip py_int line Hskip) as [-> ->]. reflexivity.
Qed.

Lemma bed_comment_lines_ignored_witness :
  Loader.is_skipped line_comment = true /\
  Loader.load_annotations_from_bed (fun s => s) sample_int
    ([line_gene_b] ++ line_comment :: [line_gene_a]) =
  Loader.load_annotations_from_bed (fun s => s) sample_int
    ([line_gene_b] ++ [line_gene_a]).
Proof.
  split; [reflexivity|].
  exact (bed_comment_lines_ignored (fun s => s) sample_int [line_gene_b] [line_gene_a]
           line_comment eq_refl).
Defined.

Lemma read_lines_members (strip : string -> string) (py_int : string -> option Z)
    (lines : list string) (a0 a : gmap string (list Loader.bed_record))
    (chrom : string) (rec : Loader.bed_record) :
  Loader.read_lines strip py_int a0 lines = Ok a ->
  ((exists recs, a !! chrom = Some recs /\ In rec recs) <->
   (exists recs, a0 !! chrom = Some recs /\ In rec recs) \/
   (exists line, In line lines /\
                 Loader.record_of_line strip py_int line = Some (chrom, rec))).
Proof.
  revert a0. induction lines as [|line lines IH]; intros a0 Hread.
  - cbn in Hread. injection Hread as <-. split; [now left|].
    intros [H|[line [[] _]]]. exact H.
  - cbn [Loader.read_lines] in Hread. rewrite add_line_cases in Hread.
    destruct (Loader.is_malformed strip py_int line); [discriminate|].
    destruct (Loader.record_of_line strip py_int line) as [[c r]|] eqn:Hrec.
    + cbn [bind] in Hread. rewrite (IH _ Hread). clear IH Hread. split.
      * intros [[recs [Hl Hin]]|[l [Hin Hl]]].
        -- destruct (decide (c = chrom)) as [->|Hne].
           ++ rewrite lookup_insert_eq in Hl. injection Hl as <-.
              apply in_app_or in Hin as [Hin|[<-|[]]].
              ** left. destruct (a0 !! chrom) as [old|]; [|contradiction].
                 exists old. split; [reflexivity|exact Hin].
              ** right. exists line. split; [now left|exact Hrec].
           ++ rewrite lookup_insert_ne in Hl by exact Hne. left. now exists recs.
        -- right. exists l. split; [now right|exact Hl].
      * intros [[recs [Hl Hin]]|[l [[<-|Hin] Hl]]].
        -- left. destruct (decide (c = chrom)) as [->|Hne].
           ++ rewrite lookup_insert_eq, Hl. eexists. split; [reflexivity|].
              apply in_or_app. now left.
           ++ rewrite lookup_insert_ne by exact Hne. now exists recs.
        -- left. rewrite Hrec in Hl. injection Hl as -> ->.
           rewrite lookup_insert_eq. eexists. split; [reflexivity|].
           apply in_or_app. right. now left.
        -- right. now exists l.
    + cbn [bind] in Hread. rewrite (IH _ Hread). split.
      * intros [H|[l [Hin Hl]]]; [now left|]. right. exists l. split; [now right|exact Hl].
      * intros [H|[l [[<-|Hin] Hl]]]; [now left| |].
        -- rewrite Hrec in Hl. discriminate.
        -- right. now exists l.
Qed.

(** X25: a record is listed under a chromosome of the loaded index exactly
    when some line of the file parses to that chromosome and record: nothing
    is lost, nothing invented, and sorting moves no record to another
    chromosome. *)
Theorem bed_index_members
    (strip : string -> string) (py_int : string -> option Z)
    (lines : list string) (idx : gmap string (list Loader.bed_record))
    (chrom : string) (rec : Loader.bed_record)
    (Hload : Loader.load_annotations_from_bed strip py_int lines = Ok idx) :
  (exists recs, idx !! chrom = Some recs /\ In rec recs) <->
  (exists line, In line lines /\
                Loader.record_of_line strip py_int line = Some (chrom, rec)).
Proof.
  destruct (load_inversion _ _ _ _ Hload) as [a [Hread ->]].
  pose proof (read_lines_members strip py_int lines ∅ a chrom rec Hread) as Hmem.
  rewrite lookup_fmap. split.
  - intros [recs [Hl Hin]]. destruct (a !! chrom) as [raw|] eqn:Hraw; [|discriminate].
    cbn in Hl. injection Hl as <-.
    apply (Permutation.Permutation_in rec
             (Permutation.Permutation_sym (sort_records_perm raw))) in Hin.
    destruct (proj1 Hmem (ex_intro _ raw (conj eq_refl Hin))) as [[recs [Hl _]]|H].
    + rewrite lookup_empty in Hl. discriminate.
    + exact H.
  - intros H. destruct (proj2 Hmem (or_intror H)) as [raw [Hraw Hin]].
    rewrite Hraw. eexists. split; [reflexivity|].
    now apply (Permutation.Permutation_in rec (sort_records_perm raw)).
Qed.

Lemma bed_index_members_witness :
  Loader.load_annotations_from_bed (fun s => s) sample_int
    [line_gene_b; line_comment; line_gene_a] =
  Ok (<["chr1"%string := [(100, 200, "geneA"%string); (300, 400, "geneB"%string)]]> ∅) /\
  ((exists recs,
      (<["chr1"%string := [(100, 200, "geneA"%string); (300, 400, "geneB"%string)]]> ∅
         : gmap string (list Loader.bed_record)) !! "chr1"%string = Some recs /\
      In (100, 200, "geneA"%string) recs) <->
   (exists line, In line [line_gene_b; line_comment; line_gene_a] /\
                 Loader.record_of_line (fun s => s) sample_int line =
                 Some ("chr1"%string, (100, 200, "geneA"%string)))).
Proof.
  split; [exact load_sample_lines|].
  exact (bed_index_members _ _ _ _ "chr1" (100, 200, "geneA"%string) load_sample_lines).
Defined.

Lemma read_lines_malformed (strip : string -> string) (py_int : string -> option Z)
    (lines : list string) (a : gmap string (list Loader.bed_record)) :
  Exists (fun line => Loader.is_malformed strip py_int line = true) lines ->
  Loader.read_lines strip py_int a lines = Raise ValueError.
Proof.
  revert a. induction lines as [|line lines IH]; intros a Hex; [inversion Hex|].
  cbn [Loader.read_lines]. rewrite add_line_cases.
  destruct (Loader.is_malformed strip py_int line) eqn:Hbad; [reflexivity|].
  assert (Htl : Exists (fun line => Loader.is_malformed strip py_int line = true) lines).
  { inversion Hex as [? ? Hhd|? ? Htl]; subst; [congruence|exact Htl]. }
  destruct (Loader.record_of_line strip py_int line) as [[c r]|]; cbn [bind];
    now apply IH.
Qed.

Lemma read_lines_wellformed (strip : string -> string) (py_int : string -> option Z)
    (lines : list string) (a : gmap string (list Loader.bed_record)) :
  Forall (fun line => Loader.is_malformed strip py_int line = false) lines ->
  exists a', Loader.read_lines strip py_int a lines = Ok a'.
Proof.
  intros Hall. revert a. induction Hall as [|line lines Hline _ IH]; intros a.
  - exists a. reflexivity.
  - cbn [Loader.read_lines]. rewrite add_line_cases, Hline.
    destruct (Loader.record_of_line strip py_int line) as [[c r]|]; cbn [bind];
      apply IH.
Qed.

(** X26: [load_annotations_from_bed] raises [ValueError] when some line that
    is not skipped has at least three fields and a start or end that is not
    an integer; when no line is like that it returns an index. *)
Theorem bed_loader_raises_on_malformed
    (strip : string -> string) (py_int : string -> option Z) (lines : list string) :
  (Exists (fun line => Loader.is_malformed strip py_int line = true) lines ->
   Loader.load_annotations_from_bed strip py_int lines = Raise ValueError) /\
  (Forall (fun line => Loader.is_malformed strip py_int line = false) lines ->
   exists idx, Loader.load_annotations_from_bed strip py_int lines = Ok idx).
Proof.
  unfold Loader.load_annotations_from_bed. split; intros H.
  - now rewrite read_lines_malformed.
  - destruct (read_lines_wellformed strip py_int lines ∅ H) as [a ->].
    eexists. reflexivity.
Qed.

Lemma bed_loader_raises_on_malformed_witness :
  Exists (fun line => Loader.is_malformed (fun s => s) sample_int line = true)
         [line_gene_a; line_bad] /\
  Loader.load_annotations_from_bed (fun s => s) sample_int [line_gene_a; line_bad]
    = Raise ValueError.
Proof.
  assert (H : Exists (fun line => Loader.is_malformed (fun s => s) sample_int line = true)
                     [line_gene_a; line_bad]).
  { apply Exists_cons_tl, Exists_cons_hd. reflexivity. }
  split; [exact H|].
  exact (proj1 (bed_loader_raises_on_malformed (fun s => s) sample_int _) H).
Defined.
